(** * QuickWorldPos: world-space position queries over a transform hierarchy

    A shallow embedding of [get_world_position.py] and of the part of the
    scene-description library ([pxr]: [Gf], [Usd], [UsdGeom]) that its three
    query functions call.

    - Module [Gf] holds the linear algebra: [Vec3d], [Matrix4d] in the
      row-vector convention of the library (a point is a row, the
      translation is the last row, [a * b] applies [a] first).
    - Module [Usd] holds time codes, time-sampled attribute values, the
      transform ops and the prims with their ancestor chain.
    - Module [UsdGeom] holds the world-transform evaluator and its per-call
      cache.
    - Module [Py] holds the effects of the Python code: what it prints, what
      it asks the evaluator to compute, and the exception it raises.
    - Module [QuickWorldPos] holds the three query functions of the source,
      on valid prims; module [Handles] holds them on prim objects that may
      be invalid.

    Scalars ([float] in Python, [double] in the library) are real numbers
    here: rounding is not part of the model. *)

From Stdlib Require Import Reals Lra List String Bool Arith Lia.
Import ListNotations.

Local Open Scope R_scope.

(* ================================================================== *)
(** ** Gf: vectors and matrices *)
(* ================================================================== *)

Module Gf.

(** [Gf.Vec3d]. *)
Record Vec3d : Type := mkVec3d { vx : R; vy : R; vz : R }.

(** One row of a [Gf.Matrix4d]. *)
Record Vec4d : Type := mkVec4d { wx : R; wy : R; wz : R; ww : R }.

(** [Gf.Matrix3d], row by row: iterating the Python object yields
    [m3row0], [m3row1], [m3row2] in this order. *)
Record Matrix3d : Type := mkMatrix3d
  { m3row0 : Vec3d; m3row1 : Vec3d; m3row2 : Vec3d }.

(** [Gf.Matrix4d], row by row. *)
Record Matrix4d : Type := mkMatrix4d
  { row0 : Vec4d; row1 : Vec4d; row2 : Vec4d; row3 : Vec4d }.

Definition Vec3d_zero : Vec3d := mkVec3d 0 0 0.

Definition Vec3d_add (a b : Vec3d) : Vec3d :=
  mkVec3d (vx a + vx b) (vy a + vy b) (vz a + vz b).

Definition Vec4d_add (a b : Vec4d) : Vec4d :=
  mkVec4d (wx a + wx b) (wy a + wy b) (wz a + wz b) (ww a + ww b).

Definition Vec4d_scale (k : R) (a : Vec4d) : Vec4d :=
  mkVec4d (k * wx a) (k * wy a) (k * wz a) (k * ww a).

(** Row vector times matrix: the linear combination of the rows of [m]
    with the components of [v] as coefficients. *)
Definition Vec4d_mult (v : Vec4d) (m : Matrix4d) : Vec4d :=
  Vec4d_add
    (Vec4d_add (Vec4d_scale (wx v) (row0 m)) (Vec4d_scale (wy v) (row1 m)))
    (Vec4d_add (Vec4d_scale (wz v) (row2 m)) (Vec4d_scale (ww v) (row3 m))).

(** [a * b] on [Gf.Matrix4d]. *)
Definition Matrix4d_mult (a b : Matrix4d) : Matrix4d :=
  mkMatrix4d (Vec4d_mult (row0 a) b) (Vec4d_mult (row1 a) b)
             (Vec4d_mult (row2 a) b) (Vec4d_mult (row3 a) b).

(** [Gf.Matrix4d(1.0)]. *)
Definition Identity : Matrix4d :=
  mkMatrix4d (mkVec4d 1 0 0 0) (mkVec4d 0 1 0 0)
             (mkVec4d 0 0 1 0) (mkVec4d 0 0 0 1).

(** [Gf.Matrix4d().SetTranslate(v)]. *)
Definition SetTranslate (v : Vec3d) : Matrix4d :=
  mkMatrix4d (mkVec4d 1 0 0 0) (mkVec4d 0 1 0 0)
             (mkVec4d 0 0 1 0) (mkVec4d (vx v) (vy v) (vz v) 1).

(** [Gf.Matrix4d().SetScale(v)]. *)
Definition SetScale (v : Vec3d) : Matrix4d :=
  mkMatrix4d (mkVec4d (vx v) 0 0 0) (mkVec4d 0 (vy v) 0 0)
             (mkVec4d 0 0 (vz v) 0) (mkVec4d 0 0 0 1).

(** Degrees to radians. *)
Definition radians (degrees : R) : R := degrees * PI / 180.

(** Right-handed rotations about the three axes, angle in degrees. *)
Definition SetRotateX (degrees : R) : Matrix4d :=
  let c := cos (radians degrees) in
  let s := sin (radians degrees) in
  mkMatrix4d (mkVec4d 1 0 0 0) (mkVec4d 0 c s 0)
             (mkVec4d 0 (- s) c 0) (mkVec4d 0 0 0 1).

Definition SetRotateY (degrees : R) : Matrix4d :=
  let c := cos (radians degrees) in
  let s := sin (radians degrees) in
  mkMatrix4d (mkVec4d c 0 (- s) 0) (mkVec4d 0 1 0 0)
             (mkVec4d s 0 c 0) (mkVec4d 0 0 0 1).

Definition SetRotateZ (degrees : R) : Matrix4d :=
  let c := cos (radians degrees) in
  let s := sin (radians degrees) in
  mkMatrix4d (mkVec4d c s 0 0) (mkVec4d (- s) c 0 0)
             (mkVec4d 0 0 1 0) (mkVec4d 0 0 0 1).

(** [m.GetTranspose()]: the same transform written for column vectors. *)
Definition GetTranspose (m : Matrix4d) : Matrix4d :=
  mkMatrix4d
    (mkVec4d (wx (row0 m)) (wx (row1 m)) (wx (row2 m)) (wx (row3 m)))
    (mkVec4d (wy (row0 m)) (wy (row1 m)) (wy (row2 m)) (wy (row3 m)))
    (mkVec4d (wz (row0 m)) (wz (row1 m)) (wz (row2 m)) (wz (row3 m)))
    (mkVec4d (ww (row0 m)) (ww (row1 m)) (ww (row2 m)) (ww (row3 m))).

(** Modelled from the spec: [Matrix4d.ExtractTranslation] of the external
    library, "translation = the matrix's translation column" (4.2); in the
    row-vector convention these are the first three entries of the last
    row. *)
Definition ExtractTranslation (m : Matrix4d) : Vec3d :=
  mkVec3d (wx (row3 m)) (wy (row3 m)) (wz (row3 m)).

Definition xyz (r : Vec4d) : Vec3d := mkVec3d (wx r) (wy r) (wz r).

(** Modelled from the spec: [Matrix4d.ExtractRotationMatrix] of the
    external library, the "(pre-orthonormalization) upper-left 3x3 block"
    (4.2), copied as it is. *)
Definition ExtractRotationMatrix (m : Matrix4d) : Matrix3d :=
  mkMatrix3d (xyz (row0 m)) (xyz (row1 m)) (xyz (row2 m)).

(** Modelled from the spec: [Vec3d.GetLength] of the external library,
    the "length" of a row vector (4.2): the Euclidean norm. *)
Definition GetLength (v : Vec3d) : R :=
  sqrt (vx v * vx v + vy v * vy v + vz v * vz v).

End Gf.

(* ================================================================== *)
(** ** Usd: time codes, attributes, transform ops, prims *)
(* ================================================================== *)

Module Usd.

Import Gf.

(** [Usd.TimeCode]: the default sentinel or a numeric time. *)
Inductive TimeCode : Type :=
| Default
| Time (t : R).

(** Linear interpolation [(1 - alpha) * a + alpha * b], per payload type. *)
Class Lerp (A : Type) : Type := lerp : R -> A -> A -> A.

#[global] Instance Lerp_R : Lerp R :=
  fun alpha a b => (1 - alpha) * a + alpha * b.

#[global] Instance Lerp_Vec3d : Lerp Vec3d :=
  fun alpha a b =>
    mkVec3d (lerp alpha (vx a) (vx b)) (lerp alpha (vy a) (vy b))
            (lerp alpha (vz a) (vz b)).

#[global] Instance Lerp_Vec4d : Lerp Vec4d :=
  fun alpha a b =>
    mkVec4d (lerp alpha (wx a) (wx b)) (lerp alpha (wy a) (wy b))
            (lerp alpha (wz a) (wz b)) (lerp alpha (ww a) (ww b)).

#[global] Instance Lerp_Matrix4d : Lerp Matrix4d :=
  fun alpha a b =>
    mkMatrix4d (lerp alpha (row0 a) (row0 b)) (lerp alpha (row1 a) (row1 b))
               (lerp alpha (row2 a) (row2 b)) (lerp alpha (row3 a) (row3 b)).

(** The value of a transform op: an optional default and the time samples,
    kept in increasing order of time. *)
Record Attribute (A : Type) : Type := mkAttribute
  { default_value : option A;
    time_samples : list (R * A) }.

Arguments mkAttribute {A} _ _.
Arguments default_value {A} _.
Arguments time_samples {A} _.

Section Sampling.

Context {A : Type} `{Lerp A}.

(** Modelled from the spec: the time sampling of the external library's
    attributes (4.1). [t] lies after the sample [(t0, v0)]; the first
    later sample [(t1, v1)] with [t <= t1] brackets it and the two are
    interpolated linearly; after the last sample its value is held. *)
Fixpoint interpolate (t t0 : R) (v0 : A) (later : list (R * A)) : A :=
  match later with
  | [] => v0
  | (t1, v1) :: later' =>
      if Rle_dec t t1
      then lerp ((t - t0) / (t1 - t0)) v0 v1
      else interpolate t t1 v1 later'
  end.

(** Modelled from the spec: evaluation of a sample sequence at a numeric
    time (4.1); before the first sample its value is held. *)
Definition sample_at (t : R) (samples : list (R * A)) : option A :=
  match samples with
  | [] => None
  | (t0, v0) :: later =>
      if Rle_dec t t0 then Some v0 else Some (interpolate t t0 v0 later)
  end.

(** Modelled from the spec: [attr.Get(time)] of the external library
    (4.1). A numeric time reads the samples, or the default when there
    are none; the default sentinel reads the default, or the earliest
    sample when there is none. *)
Definition Get (attr : Attribute A) (time : TimeCode) : option A :=
  match time with
  | Default =>
      match default_value attr with
      | Some v => Some v
      | None =>
          match time_samples attr with
          | [] => None
          | (_, v) :: _ => Some v
          end
      end
  | Time t =>
      match time_samples attr with
      | [] => default_value attr
      | _ :: _ => sample_at t (time_samples attr)
      end
  end.

End Sampling.

(** A transform op: a tagged variant over the op kinds, each with its
    time-sampled value. Angles are in degrees. *)
Inductive XformOp : Type :=
| TranslateOp (value : Attribute Vec3d)
| RotateXOp (angle : Attribute R)
| RotateYOp (angle : Attribute R)
| RotateZOp (angle : Attribute R)
| ScaleOp (value : Attribute Vec3d)
| TransformOp (value : Attribute Matrix4d).

(** Modelled from the spec: [Evaluate(op, time)] (4.1), the matrix of one
    op at a time; an op with nothing authored contributes the identity. *)
Definition Evaluate (op : XformOp) (time : TimeCode) : Matrix4d :=
  match op with
  | TranslateOp a =>
      match Get a time with Some v => SetTranslate v | None => Identity end
  | RotateXOp a =>
      match Get a time with Some d => SetRotateX d | None => Identity end
  | RotateYOp a =>
      match Get a time with Some d => SetRotateY d | None => Identity end
  | RotateZOp a =>
      match Get a time with Some d => SetRotateZ d | None => Identity end
  | ScaleOp a =>
      match Get a time with Some v => SetScale v | None => Identity end
  | TransformOp a =>
      match Get a time with Some m => m | None => Identity end
  end.

(** A prim of the stage, what a valid [Usd.Prim] object refers to: the
    prim together with its chain of ancestors up to the pseudo-root. The
    chain is finite, so the hierarchy is acyclic and rooted; every prim but
    the pseudo-root has exactly one parent. A prim object that may be
    invalid is a [Handles.Handle]. *)
Inductive Prim : Type :=
| PseudoRoot
| PrimAt (parent : Prim) (name : string) (transformable : bool)
         (xformOps : list XformOp).

(** [prim.GetParent()]. *)
Definition GetParent (prim : Prim) : option Prim :=
  match prim with
  | PseudoRoot => None
  | PrimAt parent _ _ _ => Some parent
  end.

(** [prim.IsA(UsdGeom.Xformable)] on a valid prim object; on an invalid
    one the call raises, see [Handles.IsA_Xformable]. *)
Definition IsA_Xformable (prim : Prim) : bool :=
  match prim with
  | PseudoRoot => false
  | PrimAt _ _ transformable _ => transformable
  end.

(** The ordered ops of a prim. *)
Definition GetOrderedXformOps (prim : Prim) : list XformOp :=
  match prim with
  | PseudoRoot => []
  | PrimAt _ _ _ ops => ops
  end.

(** [str(prim.GetPath())]. *)
Fixpoint GetPath (prim : Prim) : string :=
  match prim with
  | PseudoRoot => "/"
  | PrimAt parent name _ _ =>
      match parent with
      | PseudoRoot => "/" ++ name
      | PrimAt _ _ _ _ => GetPath parent ++ "/" ++ name
      end
  end%string.

(** Equality of prims is decidable: it is the identity under which the
    cache stores them. *)
Definition Vec3d_eq_dec (a b : Vec3d) : {a = b} + {a <> b}.
Proof. decide equality; apply Req_EM_T. Defined.

Definition Vec4d_eq_dec (a b : Vec4d) : {a = b} + {a <> b}.
Proof. decide equality; apply Req_EM_T. Defined.

Definition Matrix4d_eq_dec (a b : Matrix4d) : {a = b} + {a <> b}.
Proof. decide equality; apply Vec4d_eq_dec. Defined.

Definition Attribute_eq_dec {A : Type}
  (A_eq_dec : forall x y : A, {x = y} + {x <> y})
  (a b : Attribute A) : {a = b} + {a <> b}.
Proof.
  decide equality.
  - apply list_eq_dec. decide equality. apply Req_EM_T.
  - decide equality.
Defined.

Definition XformOp_eq_dec (a b : XformOp) : {a = b} + {a <> b}.
Proof.
  decide equality;
    first [ apply (Attribute_eq_dec Vec3d_eq_dec)
          | apply (Attribute_eq_dec Req_EM_T)
          | apply (Attribute_eq_dec Matrix4d_eq_dec) ].
Defined.

Definition Prim_eq_dec (a b : Prim) : {a = b} + {a <> b}.
Proof.
  decide equality.
  - apply (list_eq_dec XformOp_eq_dec).
  - apply bool_dec.
  - apply string_dec.
Defined.

End Usd.

(* ================================================================== *)
(** ** UsdGeom: the world-transform evaluator and its cache *)
(* ================================================================== *)

Module UsdGeom.

Import Gf Usd.

(** Modelled from the spec: the local matrix of a node, the "product of
    its ops, evaluated at [time], in authored order" (3, 4.2). The first
    authored op is the outermost one: for ops [op1; ...; opN] the matrix
    is [opN * ... * op1] on row vectors, which is the spec's
    [M_op1 . M_op2 . ...] on column vectors. *)
Fixpoint GetLocalTransformation (ops : list XformOp) (time : TimeCode)
  : Matrix4d :=
  match ops with
  | [] => Identity
  | op :: later =>
      Matrix4d_mult (GetLocalTransformation later time) (Evaluate op time)
  end.

(** Modelled from the spec: [Xformable(prim).ComputeLocalToWorldTransform]
    of the external library, [ComputeWorldTransform(node, time)] of 4.2:
    the identity at the root and, below it, the parent's world transform
    composed with the node's local one. On row vectors the local matrix
    stands on the left. *)
Fixpoint ComputeLocalToWorldTransform (prim : Prim) (time : TimeCode)
  : Matrix4d :=
  match prim with
  | PseudoRoot => Identity
  | PrimAt parent _ _ ops =>
      Matrix4d_mult (GetLocalTransformation ops time)
                    (ComputeLocalToWorldTransform parent time)
  end.

(** Modelled from the spec: [UsdGeom.XformCache] of the external library,
    the cache entries of 3 and 4.3: previously computed world transforms by
    node, for the one time the cache was created with. *)
Record XformCache : Type := mkXformCache
  { cache_time : TimeCode;
    cache_entries : list (Prim * Matrix4d) }.

(** [UsdGeom.XformCache(time)]: a fresh, empty cache. *)
Definition XformCache_new (time : TimeCode) : XformCache :=
  mkXformCache time [].

Fixpoint cache_find (prim : Prim) (entries : list (Prim * Matrix4d))
  : option Matrix4d :=
  match entries with
  | [] => None
  | (p, m) :: later =>
      if Prim_eq_dec prim p then Some m else cache_find prim later
  end.

(** Modelled from the spec: the cached evaluation of 4.3, "consulting/
    populating the cache for every ancestor along the way": a stored
    transform is reused; otherwise the parent is evaluated through the
    cache, the node's local matrix is composed with it and the result is
    stored. *)
Fixpoint cached_world (time : TimeCode) (prim : Prim)
  (entries : list (Prim * Matrix4d)) : Matrix4d * list (Prim * Matrix4d) :=
  match cache_find prim entries with
  | Some m => (m, entries)
  | None =>
      match prim with
      | PseudoRoot => (Identity, entries)
      | PrimAt parent _ _ ops =>
          let (parent_world, entries') := cached_world time parent entries in
          let m := Matrix4d_mult (GetLocalTransformation ops time)
                                 parent_world in
          (m, (prim, m) :: entries')
      end
  end.

(** Modelled from the spec: [cache.GetLocalToWorldTransform(prim)] of the
    external library (4.3); returns the transform and the updated cache. *)
Definition GetLocalToWorldTransform (cache : XformCache) (prim : Prim)
  : Matrix4d * XformCache :=
  let (m, entries') := cached_world (cache_time cache) prim
                                    (cache_entries cache) in
  (m, mkXformCache (cache_time cache) entries').

End UsdGeom.

(* ================================================================== *)
(** ** Py: the effects of the Python code *)
(* ================================================================== *)

Module Py.

Import Usd.

(** The exceptions the source raises. *)
Inductive Exception : Type :=
| RuntimeError (message : string).

(** What a call leaves behind, in order: a line printed on standard
    output, or a world transform requested from the evaluator. *)
Inductive Event : Type :=
| Printed (line : string)
| XformRequested (prim : Prim) (time : TimeCode).

Inductive Outcome (A : Type) : Type :=
| Returned (value : A)
| Raised (exn : Exception).

Arguments Returned {A} _.
Arguments Raised {A} _.

(** A computation: the events it produced and how it ended. *)
Definition M (A : Type) : Type := (list Event * Outcome A)%type.

Definition ret {A : Type} (a : A) : M A := ([], Returned a).

Definition bind {A B : Type} (m : M A) (f : A -> M B) : M B :=
  match m with
  | (log, Returned a) => let (log', out) := f a in (log ++ log', out)
  | (log, Raised e) => (log, Raised e)
  end.

Definition raise {A : Type} (e : Exception) : M A := ([], Raised e).

Definition print (line : string) : M unit := ([Printed line], Returned tt).

Definition events {A : Type} (m : M A) : list Event := fst m.

Definition outcome {A : Type} (m : M A) : Outcome A := snd m.

(** The lines printed by a computation. *)
Fixpoint printed (log : list Event) : list string :=
  match log with
  | [] => []
  | Printed line :: later => line :: printed later
  | XformRequested _ _ :: later => printed later
  end.


End Py.

Declare Scope py_scope.
Delimit Scope py_scope with py.

Notation "x <- c1 ;; c2" := (Py.bind c1 (fun x => c2))
  (at level 61, c1 at next level, right associativity) : py_scope.
Notation "c1 ;; c2" := (Py.bind c1 (fun _ => c2))
  (at level 61, right associativity) : py_scope.

(* ================================================================== *)
(** ** QuickWorldPos: the query functions of [get_world_position.py] *)
(* ================================================================== *)

Module QuickWorldPos.

Import Gf Usd UsdGeom Py.

Local Open Scope string_scope.
Local Open Scope py_scope.

(** The call [UsdGeom.Xformable(prim).ComputeLocalToWorldTransform(time)]:
    the request is recorded and the evaluator's matrix returned. *)
Definition Xformable_ComputeLocalToWorldTransform
  (prim : Prim) (time : TimeCode) : M Matrix4d :=
  ([XformRequested prim time],
   Returned (ComputeLocalToWorldTransform prim time)).

(** The call [cache.GetLocalToWorldTransform(prim)]: the request is
    recorded; the matrix comes back with the cache as the call left it. *)
Definition cache_GetLocalToWorldTransform
  (cache : XformCache) (prim : Prim) : M (Matrix4d * XformCache) :=
  ([XformRequested prim (cache_time cache)],
   Returned (GetLocalToWorldTransform cache prim)).

(** The message of the error raised by [get_world_position]. *)
Definition not_transformable_message (prim : Prim) : string :=
  "Prim at path " ++ GetPath prim ++ " is not transformable. "
  ++ "It must inherit from UsdGeomXformable.".

(** [get_world_position(prim, time)]. *)
Definition get_world_position (prim : Prim) (time : TimeCode) : M Vec3d :=
  if negb (IsA_Xformable prim) then
    raise (RuntimeError (not_transformable_message prim))
  else
    world_transform <- Xformable_ComputeLocalToWorldTransform prim time ;;
    ret (ExtractTranslation world_transform).

(** The line printed by [get_world_positions_batch] for a prim it skips. *)
Definition skipping_warning (prim : Prim) : string :=
  "Warning: Prim " ++ GetPath prim ++ " is not transformable, skipping.".

(** The [for prim in prims] loop of [get_world_positions_batch], with the
    cache and the [positions] list it appends to. *)
Fixpoint batch_loop (cache : XformCache) (prims : list Prim)
  (positions : list Vec3d) : M (list Vec3d) :=
  match prims with
  | [] => ret positions
  | prim :: later =>
      if negb (IsA_Xformable prim) then
        print (skipping_warning prim) ;;
        batch_loop cache later (positions ++ [mkVec3d 0 0 0])
      else
        r <- cache_GetLocalToWorldTransform cache prim ;;
        let (world_transform, cache') := r in
        batch_loop cache' later
                   (positions ++ [ExtractTranslation world_transform])
  end.

(** [get_world_positions_batch(prims, time)]. *)
Definition get_world_positions_batch (prims : list Prim) (time : TimeCode)
  : M (list Vec3d) :=
  batch_loop (XformCache_new time) prims [].

(** The message of the error raised by [get_world_transform_components]. *)
Definition components_message (prim : Prim) : string :=
  "Prim at path " ++ GetPath prim ++ " is not transformable.".

Section Decomposition.

(** [Gf.Rotation] and [Matrix4d.ExtractRotation] of the external library:
    the source passes the rotation through untouched. *)
Variable Rotation : Type.
Variable ExtractRotation : Matrix4d -> Rotation.

(** [get_world_transform_components(prim, time)]. The scale is built from
    the lengths of the three rows [v] of [ExtractRotationMatrix()]. *)
Definition get_world_transform_components (prim : Prim) (time : TimeCode)
  : M (Vec3d * Rotation * Vec3d) :=
  if negb (IsA_Xformable prim) then
    raise (RuntimeError (components_message prim))
  else
    world_transform <- Xformable_ComputeLocalToWorldTransform prim time ;;
    let translation := ExtractTranslation world_transform in
    let rotation := ExtractRotation world_transform in
    let scale :=
      let r := ExtractRotationMatrix world_transform in
      mkVec3d (GetLength (m3row0 r)) (GetLength (m3row1 r))
              (GetLength (m3row2 r)) in
    ret (translation, rotation, scale).

End Decomposition.

(** *** Notions used by the statements *)

(** A constant value: a default and no time samples. *)
Definition constant {A : Type} (v : A) : Attribute A := mkAttribute (Some v) [].

(** Some scale op of the list evaluates, at [time], to a vector with a
    zero component. *)
Definition zero_component (v : Vec3d) : Prop :=
  vx v = 0 \/ vy v = 0 \/ vz v = 0.

Definition has_degenerate_scale (ops : list XformOp) (time : TimeCode)
  : Prop :=
  exists a v, In (ScaleOp a) ops /\ Get a time = Some v /\ zero_component v.

(** The time samples are in strictly increasing order of time. *)
Fixpoint increasing_after {A : Type} (t0 : R) (later : list (R * A)) : Prop :=
  match later with
  | [] => True
  | (t1, _) :: later' => t0 < t1 /\ increasing_after t1 later'
  end.

Definition increasing {A : Type} (samples : list (R * A)) : Prop :=
  match samples with
  | [] => True
  | (t0, _) :: later => increasing_after t0 later
  end.

(** Every stored transform of the cache is the one the evaluator computes
    for its prim at the time of the cache. *)
Definition coherent (time : TimeCode) (entries : list (Prim * Matrix4d))
  : Prop :=
  forall prim m, cache_find prim entries = Some m ->
                 m = ComputeLocalToWorldTransform prim time.

(** What the batch contract asks for at one position: the world position
    of a transformable prim, the zero vector for any other. *)
Definition batch_position (time : TimeCode) (prim : Prim) : Vec3d :=
  if IsA_Xformable prim
  then ExtractTranslation (ComputeLocalToWorldTransform prim time)
  else mkVec3d 0 0 0.

(** What the batch loop leaves behind for one prim: the request of its
    transform, or the warning that it is skipped. *)
Definition batch_event (time : TimeCode) (prim : Prim) : Event :=
  if IsA_Xformable prim
  then XformRequested prim time
  else Printed (skipping_warning prim).

(** Linear interpolation reaches its two ends. *)
Class LerpLaws (A : Type) `{Lerp A} : Prop :=
  { lerp_0 : forall a b : A, lerp 0 a b = a;
    lerp_1 : forall a b : A, lerp 1 a b = b }.

(** *** The scenes of the test suite *)

Definition World : Prim := PrimAt PseudoRoot "World" true [].

Definition translate (x y z : R) : XformOp :=
  TranslateOp (constant (mkVec3d x y z)).

Definition Parent : Prim :=
  PrimAt World "Parent" true [translate 100 0 0].

Definition Child : Prim :=
  PrimAt Parent "Child" true [translate 0 50 0].

Definition Scope : Prim := PrimAt World "Scope" false [].

(** The animated cube of [test_position_at_different_times]. *)
Definition animated_translate : Attribute Vec3d :=
  mkAttribute None
    [(0, mkVec3d 0 0 0); (50, mkVec3d 50 0 0); (100, mkVec3d 100 0 0)].

Definition AnimatedCube : Prim :=
  PrimAt World "Cube" true [TranslateOp animated_translate].

(** A cube flattened along x: its scale op has a zero component. *)
Definition FlatCube : Prim :=
  PrimAt World "Flat" true
    [translate 1 2 3; ScaleOp (constant (mkVec3d 0 1 1))].

(** A cube mirrored along x. *)
Definition MirroredCube : Prim :=
  PrimAt World "Mirrored" true [ScaleOp (constant (mkVec3d (-2) 3 4))].

(** A cube sheared in the xy plane, and one only scaled. *)
Definition shear_matrix : Matrix4d :=
  mkMatrix4d (mkVec4d 1 0 0 0) (mkVec4d 1 1 0 0)
             (mkVec4d 0 0 1 0) (mkVec4d 0 0 0 1).

Definition ShearedCube : Prim :=
  PrimAt World "Sheared" true [TransformOp (constant shear_matrix)].

Definition ScaledCube : Prim :=
  PrimAt World "Scaled" true [ScaleOp (constant (mkVec3d 1 (sqrt 2) 1))].

End QuickWorldPos.

(* ================================================================== *)
(** ** Companions: the other entry points and the notions of their
       properties *)
(* ================================================================== *)

Module Companions.

Import Gf Usd UsdGeom Py QuickWorldPos.

Local Open Scope string_scope.
Local Open Scope py_scope.

(** [traditional_get_position(prim, time)] of the test suite, the three
    steps also spelled out in [example_basic_usage]: no check of the prim
    comes first. *)
Definition traditional_get_position (prim : Prim) (time : TimeCode)
  : M Vec3d :=
  world_transform <- Xformable_ComputeLocalToWorldTransform prim time ;;
  ret (ExtractTranslation world_transform).

(** The exception of [get_world_position_omniverse]. *)
Inductive KitException : Type :=
| ImportError (message : string).

Inductive KitOutcome : Type :=
| KitReturned (position : Vec3d)
| KitRaised (exn : KitException).

Section Omniverse.

(** The module [omni.usd] when it can be imported, as its function
    [get_world_transform_matrix] called with the prim alone; [None] when
    the import fails. *)
Variable omni_usd : option (Prim -> Matrix4d).

(** [get_world_position_omniverse(prim, time)]. The prim is not checked
    and [time] is not passed on. *)
Definition get_world_position_omniverse (prim : Prim) (time : TimeCode)
  : KitOutcome :=
  match omni_usd with
  | None =>
      KitRaised
        (ImportError
           ("omni.usd module not available. This function only works in "
            ++ "Omniverse Kit applications. Use get_world_position() for "
            ++ "portable OpenUSD code."))
  | Some get_world_transform_matrix =>
      let world_transform := get_world_transform_matrix prim in
      KitReturned (ExtractTranslation world_transform)
  end.

End Omniverse.

(** *** Notions used by the statements *)

(** An op without time samples. *)
Definition static_op (op : XformOp) : Prop :=
  match op with
  | TranslateOp a => time_samples a = []
  | RotateXOp a => time_samples a = []
  | RotateYOp a => time_samples a = []
  | RotateZOp a => time_samples a = []
  | ScaleOp a => time_samples a = []
  | TransformOp a => time_samples a = []
  end.

(** A prim none of whose ops, nor any of its ancestors' ops, has time
    samples. *)
Fixpoint static (prim : Prim) : Prop :=
  match prim with
  | PseudoRoot => True
  | PrimAt parent _ _ ops => Forall static_op ops /\ static parent
  end.

(** The sum of the translations of a list of ops, when every op is a
    translate with a value at [time]. *)
Fixpoint ops_translation (ops : list XformOp) (time : TimeCode)
  : option Vec3d :=
  match ops with
  | [] => Some (mkVec3d 0 0 0)
  | TranslateOp a :: later =>
      match Get a time, ops_translation later time with
      | Some v, Some rest => Some (Vec3d_add v rest)
      | _, _ => None
      end
  | _ :: _ => None
  end.

(** The sum of the translations along the ancestor chain, when the chain
    carries nothing but translations. *)
Fixpoint total_translation (prim : Prim) (time : TimeCode) : option Vec3d :=
  match prim with
  | PseudoRoot => Some (mkVec3d 0 0 0)
  | PrimAt parent _ _ ops =>
      match total_translation parent time, ops_translation ops time with
      | Some above, Some own => Some (Vec3d_add above own)
      | _, _ => None
      end
  end.

(** A point [(x, y, z, 1)] carried through a matrix. *)
Definition Transform (p : Vec3d) (m : Matrix4d) : Vec3d :=
  xyz (Vec4d_mult (mkVec4d (vx p) (vy p) (vz p) 1) m).

(** *** More scenes of the test suite and of the examples *)

(** [test_multi_level_hierarchy]. *)
Definition Level1 : Prim := PrimAt World "Level1" true [translate 10 0 0].
Definition Level2 : Prim := PrimAt Level1 "Level2" true [translate 0 20 0].
Definition Level3 : Prim := PrimAt Level2 "Level3" true [translate 0 0 30].
Definition Level3Child : Prim :=
  PrimAt Level3 "Child" true [translate 1 2 3].

(** [test_rotation_affects_child_position]. *)
Definition RotatedParent : Prim :=
  PrimAt World "Parent" true [RotateZOp (constant 90)].

Definition RotatedChild : Prim :=
  PrimAt RotatedParent "Child" true [translate 10 0 0].

(** [test_default_time_vs_specific_time]. *)
Definition default_and_sample : Attribute Vec3d :=
  mkAttribute (Some (mkVec3d 10 0 0)) [(100, mkVec3d 50 0 0)].

Definition DefaultAndSampleCube : Prim :=
  PrimAt World "Cube" true [TranslateOp default_and_sample].

(** [test_transform_decomposition], its Euler rotation (0, 45, 0) being
    the rotation by 45 degrees about y. *)
Definition DecomposedCube : Prim :=
  PrimAt World "Cube" true
    [translate 10 20 30; RotateYOp (constant 45);
     ScaleOp (constant (mkVec3d 2 3 4))].

End Companions.

(* ================================================================== *)
(** ** Handles: prim objects that may be invalid *)
(* ================================================================== *)

Module Handles.

Import Gf Usd UsdGeom Py.

Local Open Scope string_scope.
Local Open Scope py_scope.

(** A [Usd.Prim] object as the Python code receives it: a handle on a prim
    of the stage, or an invalid handle (the null prim [Usd.Prim()], what
    [stage.GetPrimAtPath] returns for a path without a prim, an expired
    prim) with the library's description of it, as in
    "invalid null prim". *)
Inductive Handle : Type :=
| ValidPrim (prim : Prim)
| InvalidPrim (description : string).

(** The error the external library raises for any access through an
    invalid handle. *)
Definition accessed_invalid (description : string) : Exception :=
  RuntimeError ("Accessed " ++ description).

(** A method of the prim object: it runs on the prim of a valid handle and
    raises on an invalid one. *)
Definition method {A : Type} (handle : Handle) (body : Prim -> M A) : M A :=
  match handle with
  | ValidPrim prim => body prim
  | InvalidPrim description => raise (accessed_invalid description)
  end.

(** [prim.IsA(UsdGeom.Xformable)]. *)
Definition IsA_Xformable (handle : Handle) : M bool :=
  method handle (fun prim => ret (Usd.IsA_Xformable prim)).

(** [prim.GetPath()], as the string put into the messages. *)
Definition GetPath (handle : Handle) : M string :=
  method handle (fun prim => ret (Usd.GetPath prim)).

(** [UsdGeom.Xformable(prim).ComputeLocalToWorldTransform(time)]. *)
Definition Xformable_ComputeLocalToWorldTransform
  (handle : Handle) (time : TimeCode) : M Matrix4d :=
  method handle
    (fun prim => QuickWorldPos.Xformable_ComputeLocalToWorldTransform
                   prim time).

(** [cache.GetLocalToWorldTransform(prim)]. *)
Definition cache_GetLocalToWorldTransform
  (cache : XformCache) (handle : Handle) : M (Matrix4d * XformCache) :=
  method handle
    (fun prim => QuickWorldPos.cache_GetLocalToWorldTransform cache prim).

(** [get_world_position(prim, time)] on a prim object. *)
Definition get_world_position (prim : Handle) (time : TimeCode) : M Vec3d :=
  is_a <- IsA_Xformable prim ;;
  if negb is_a then
    path <- GetPath prim ;;
    raise (RuntimeError
             ("Prim at path " ++ path ++ " is not transformable. "
              ++ "It must inherit from UsdGeomXformable."))
  else
    world_transform <- Xformable_ComputeLocalToWorldTransform prim time ;;
    ret (ExtractTranslation world_transform).

(** The loop of [get_world_positions_batch] on prim objects. *)
Fixpoint batch_loop (cache : XformCache) (prims : list Handle)
  (positions : list Vec3d) : M (list Vec3d) :=
  match prims with
  | [] => ret positions
  | prim :: later =>
      is_a <- IsA_Xformable prim ;;
      if negb is_a then
        path <- GetPath prim ;;
        print ("Warning: Prim " ++ path
               ++ " is not transformable, skipping.") ;;
        batch_loop cache later (positions ++ [mkVec3d 0 0 0])
      else
        r <- cache_GetLocalToWorldTransform cache prim ;;
        let (world_transform, cache') := r in
        batch_loop cache' later
                   (positions ++ [ExtractTranslation world_transform])
  end.

(** [get_world_positions_batch(prims, time)] on prim objects. *)
Definition get_world_positions_batch (prims : list Handle) (time : TimeCode)
  : M (list Vec3d) :=
  batch_loop (XformCache_new time) prims [].

Section Decomposition.

Variable Rotation : Type.
Variable ExtractRotation : Matrix4d -> Rotation.

(** [get_world_transform_components(prim, time)] on a prim object. *)
Definition get_world_transform_components (prim : Handle) (time : TimeCode)
  : M (Vec3d * Rotation * Vec3d) :=
  is_a <- IsA_Xformable prim ;;
  if negb is_a then
    path <- GetPath prim ;;
    raise (RuntimeError ("Prim at path " ++ path
                         ++ " is not transformable."))
  else
    world_transform <- Xformable_ComputeLocalToWorldTransform prim time ;;
    let translation := ExtractTranslation world_transform in
    let rotation := ExtractRotation world_transform in
    let scale :=
      let r := ExtractRotationMatrix world_transform in
      mkVec3d (GetLength (m3row0 r)) (GetLength (m3row1 r))
              (GetLength (m3row2 r)) in
    ret (translation, rotation, scale).

End Decomposition.

End Handles.

(* ================================================================== *)
(** ** Degenerate: the determinant, for transforms without inverse *)
(* ================================================================== *)

Module Degenerate.

Import Gf.

Definition det3 (a b c d e f g h i : R) : R :=
  a * (e * i - f * h) - b * (d * i - f * g) + c * (d * h - e * g).

(** [m.GetDeterminant()], expanded along the first row. *)
Definition GetDeterminant (m : Matrix4d) : R :=
  let r0 := row0 m in let r1 := row1 m in
  let r2 := row2 m in let r3 := row3 m in
  wx r0 * det3 (wy r1) (wz r1) (ww r1) (wy r2) (wz r2) (ww r2)
               (wy r3) (wz r3) (ww r3)
  - wy r0 * det3 (wx r1) (wz r1) (ww r1) (wx r2) (wz r2) (ww r2)
                 (wx r3) (wz r3) (ww r3)
  + wz r0 * det3 (wx r1) (wy r1) (ww r1) (wx r2) (wy r2) (ww r2)
                 (wx r3) (wy r3) (ww r3)
  - ww r0 * det3 (wx r1) (wy r1) (wz r1) (wx r2) (wy r2) (wz r2)
                 (wx r3) (wy r3) (wz r3).

(** A matrix without inverse, on either side. *)
Definition non_invertible (m : Matrix4d) : Prop :=
  ~ exists inverse : Matrix4d,
      Matrix4d_mult m inverse = Identity
      \/ Matrix4d_mult inverse m = Identity.

End Degenerate.

(* ================================================================== *)
(** ** Properties *)
(* ================================================================== *)

Import Gf Usd UsdGeom Py QuickWorldPos Companions Degenerate.

Local Open Scope string_scope.
Local Open Scope R_scope.

(** *** Matrix algebra *)

Ltac unfold_gf :=
  cbv [Matrix4d_mult Vec4d_mult Vec4d_add Vec4d_scale Vec3d_add
       GetTranspose ExtractTranslation ExtractRotationMatrix xyz
       SetTranslate SetScale Identity Vec3d_zero
       row0 row1 row2 row3 wx wy wz ww vx vy vz m3row0 m3row1 m3row2] in *.

(** Unfolds the evaluator on a concrete scene, leaving the reals alone. *)
Ltac eval_scene :=
  cbn [ComputeLocalToWorldTransform GetLocalTransformation Evaluate Get
       constant default_value time_samples IsA_Xformable negb].

Ltac split_components :=
  repeat match goal with
    | |- mkMatrix4d _ _ _ _ = mkMatrix4d _ _ _ _ => f_equal
    | |- mkVec4d _ _ _ _ = mkVec4d _ _ _ _ => f_equal
    | |- mkVec3d _ _ _ = mkVec3d _ _ _ => f_equal
    | |- mkMatrix3d _ _ _ = mkMatrix3d _ _ _ => f_equal
    end.

Ltac gf_ring := unfold_gf; split_components; ring.

Lemma Vec4d_eta (v : Vec4d) : v = mkVec4d (wx v) (wy v) (wz v) (ww v).
Proof. destruct v; reflexivity. Qed.

Lemma Matrix4d_eta (m : Matrix4d) :
  m = mkMatrix4d (row0 m) (row1 m) (row2 m) (row3 m).
Proof. destruct m; reflexivity. Qed.

Lemma Matrix4d_mult_Identity_l (m : Matrix4d) : Matrix4d_mult Identity m = m.
Proof.
  destruct m as [[] [] [] []]. gf_ring.
Qed.

Lemma Matrix4d_mult_Identity_r (m : Matrix4d) : Matrix4d_mult m Identity = m.
Proof.
  destruct m as [[] [] [] []]. gf_ring.
Qed.

Lemma GetTranspose_mult (a b : Matrix4d) :
  GetTranspose (Matrix4d_mult a b)
  = Matrix4d_mult (GetTranspose b) (GetTranspose a).
Proof.
  destruct a as [[] [] [] []], b as [[] [] [] []]. gf_ring.
Qed.

Lemma SetTranslate_mult (c p : Vec3d) :
  Matrix4d_mult (SetTranslate c) (SetTranslate p)
  = SetTranslate (Vec3d_add p c).
Proof.
  destruct c, p. gf_ring.
Qed.

Lemma ExtractTranslation_SetTranslate (v : Vec3d) :
  ExtractTranslation (SetTranslate v) = v.
Proof. destruct v; reflexivity. Qed.

Create Rewrite HintDb gf.

#[local] Hint Rewrite Matrix4d_mult_Identity_l Matrix4d_mult_Identity_r
  SetTranslate_mult ExtractTranslation_SetTranslate : gf.

(** *** The query functions, unfolded *)

Lemma get_world_position_transformable (prim : Prim) (time : TimeCode) :
  IsA_Xformable prim = true ->
  get_world_position prim time
  = ([XformRequested prim time],
     Returned (ExtractTranslation (ComputeLocalToWorldTransform prim time))).
Proof.
  intros Hx. unfold get_world_position. rewrite Hx. reflexivity.
Qed.

Lemma get_world_position_not_transformable (prim : Prim) (time : TimeCode) :
  IsA_Xformable prim = false ->
  get_world_position prim time
  = ([], Raised (RuntimeError (not_transformable_message prim))).
Proof.
  intros Hx. unfold get_world_position. rewrite Hx. reflexivity.
Qed.

Lemma local_single_translate (a : Attribute Vec3d) (time : TimeCode)
  (c : Vec3d) :
  Get a time = Some c ->
  GetLocalTransformation [TranslateOp a] time = SetTranslate c.
Proof.
  intros Hc. simpl. rewrite Hc. apply Matrix4d_mult_Identity_l.
Qed.

(** *** C1: composition along the hierarchy *)

(** C1. The world transform is the identity at the root and, below it,
    the parent's world transform composed with the node's local transform
    (local on the left for row vectors; on column vectors, the transposes
    multiply as World(parent) . Local(node)). When the parent's world
    transform is the translation by [p] and the child carries the single
    translation [c], [get_world_position] of the child returns [p + c]. *)
Theorem C1_world_transform_composition
  (parent : Prim) (name : string) (transformable : bool)
  (ops : list XformOp) (time : TimeCode) :
  ComputeLocalToWorldTransform PseudoRoot time = Identity
  /\ ComputeLocalToWorldTransform (PrimAt parent name transformable ops) time
     = Matrix4d_mult (GetLocalTransformation ops time)
                     (ComputeLocalToWorldTransform parent time)
  /\ GetTranspose
       (ComputeLocalToWorldTransform (PrimAt parent name transformable ops)
                                     time)
     = Matrix4d_mult
         (GetTranspose (ComputeLocalToWorldTransform parent time))
         (GetTranspose (GetLocalTransformation ops time))
  /\ forall (p c : Vec3d) (a : Attribute Vec3d),
       ComputeLocalToWorldTransform parent time = SetTranslate p ->
       Get a time = Some c ->
       get_world_position (PrimAt parent name true [TranslateOp a]) time
       = ([XformRequested (PrimAt parent name true [TranslateOp a]) time],
          Returned (Vec3d_add p c)).
Proof.
  repeat split.
  - simpl. apply GetTranspose_mult.
  - intros p c a Hp Hc.
    rewrite get_world_position_transformable by reflexivity.
    cbn [ComputeLocalToWorldTransform].
    rewrite (local_single_translate a time c Hc), Hp.
    now autorewrite with gf.
Qed.

(** The scene of [test_parent_child_translation]: parent at (100, 0, 0),
    child at local (0, 50, 0), world position (100, 50, 0). *)
Lemma C1_parent_child_translation :
  outcome (get_world_position Child Default)
  = Returned (Vec3d_add (mkVec3d 100 0 0) (mkVec3d 0 50 0)).
Proof.
  unfold Child, translate.
  destruct (C1_world_transform_composition Parent "Child" true [] Default)
    as (_ & _ & _ & Hadd).
  rewrite (Hadd (mkVec3d 100 0 0) (mkVec3d 0 50 0)
                (constant (mkVec3d 0 50 0))).
  - reflexivity.
  - unfold Parent, World, translate. eval_scene.
    now autorewrite with gf.
  - reflexivity.
Defined.

(** *** C2: the transformability check of the single-node queries *)

Lemma components_transformable (Rotation : Type)
  (ExtractRotation : Matrix4d -> Rotation) (prim : Prim) (time : TimeCode) :
  IsA_Xformable prim = true ->
  get_world_transform_components Rotation ExtractRotation prim time
  = ([XformRequested prim time],
     Returned
       (let w := ComputeLocalToWorldTransform prim time in
        (ExtractTranslation w, ExtractRotation w,
         mkVec3d (GetLength (xyz (row0 w))) (GetLength (xyz (row1 w)))
                 (GetLength (xyz (row2 w)))))).
Proof.
  intros Hx. unfold get_world_transform_components. rewrite Hx. reflexivity.
Qed.

Lemma components_not_transformable (Rotation : Type)
  (ExtractRotation : Matrix4d -> Rotation) (prim : Prim) (time : TimeCode) :
  IsA_Xformable prim = false ->
  get_world_transform_components Rotation ExtractRotation prim time
  = ([], Raised (RuntimeError (components_message prim))).
Proof.
  intros Hx. unfold get_world_transform_components. rewrite Hx. reflexivity.
Qed.

(** C2. Each single-node query raises if and only if the prim is not
    transformable. It then raises a [RuntimeError] whose message spells out
    the prim's path, and has requested no transform before doing so. On a
    transformable prim [get_world_position] returns the translation of the
    world transform. *)
Theorem C2_invalid_node_kind (Rotation : Type)
  (ExtractRotation : Matrix4d -> Rotation) (prim : Prim) (time : TimeCode) :
  ((exists e, outcome (get_world_position prim time) = Raised e)
   <-> IsA_Xformable prim = false)
  /\ ((exists e,
         outcome (get_world_transform_components Rotation ExtractRotation
                                                 prim time) = Raised e)
      <-> IsA_Xformable prim = false)
  /\ (IsA_Xformable prim = false ->
      get_world_position prim time
      = ([], Raised (RuntimeError
                       ("Prim at path " ++ GetPath prim
                        ++ " is not transformable. "
                        ++ "It must inherit from UsdGeomXformable.")))
      /\ get_world_transform_components Rotation ExtractRotation prim time
         = ([], Raised (RuntimeError
                          ("Prim at path " ++ GetPath prim
                           ++ " is not transformable."))))
  /\ (IsA_Xformable prim = true ->
      get_world_position prim time
      = ([XformRequested prim time],
         Returned (ExtractTranslation
                     (ComputeLocalToWorldTransform prim time)))).
Proof.
  destruct (IsA_Xformable prim) eqn:Hx.
  - rewrite (get_world_position_transformable prim time Hx).
    rewrite (components_transformable _ ExtractRotation prim time Hx).
    repeat split; try discriminate; intros [e He]; discriminate He.
  - rewrite (get_world_position_not_transformable prim time Hx).
    rewrite (components_not_transformable _ ExtractRotation prim time Hx).
    repeat split; try discriminate; intros _; eexists; reflexivity.
Qed.

(** The scene of [test_non_transformable_prim]: a [Scope] under [/World]. *)
Lemma C2_scope_raises :
  IsA_Xformable Scope = false
  /\ get_world_position Scope Default
     = ([], Raised (RuntimeError
                      ("Prim at path /World/Scope is not transformable. "
                       ++ "It must inherit from UsdGeomXformable.")))
  /\ IsA_Xformable Child = true
  /\ outcome (get_world_position Child Default)
     = Returned (ExtractTranslation
                   (ComputeLocalToWorldTransform Child Default)).
Proof.
  split; [reflexivity|]. split.
  - destruct (C2_invalid_node_kind Matrix3d ExtractRotationMatrix
                                   Scope Default) as (_ & _ & Hraise & _).
    destruct (Hraise eq_refl) as [Hpos _]. exact Hpos.
  - split; [reflexivity|].
    destruct (C2_invalid_node_kind Matrix3d ExtractRotationMatrix
                                   Child Default) as (_ & _ & _ & Hret).
    rewrite (Hret eq_refl). reflexivity.
Defined.

(** *** The per-call cache *)

Lemma coherent_nil (time : TimeCode) : coherent time [].
Proof. intros prim m Hfind. discriminate Hfind. Qed.

Lemma coherent_cons (time : TimeCode) (prim : Prim)
  (entries : list (Prim * Matrix4d)) :
  coherent time entries ->
  coherent time
    ((prim, ComputeLocalToWorldTransform prim time) :: entries).
Proof.
  intros Hcoh q m. cbn [cache_find].
  destruct (Prim_eq_dec q prim) as [->|Hne].
  - intros [= <-]. reflexivity.
  - apply Hcoh.
Qed.

(** The cached evaluation returns what the evaluator computes, and leaves
    a coherent cache behind. *)
Lemma cached_world_sound (time : TimeCode) (prim : Prim) :
  forall entries, coherent time entries ->
    fst (cached_world time prim entries)
    = ComputeLocalToWorldTransform prim time
    /\ coherent time (snd (cached_world time prim entries)).
Proof.
  induction prim as [|parent IH name transformable ops];
    intros entries Hcoh.
  - cbn [cached_world].
    destruct (cache_find PseudoRoot entries) as [m|] eqn:Hfind.
    + cbn [fst snd]. split; [now apply Hcoh | exact Hcoh].
    + split; [reflexivity | exact Hcoh].
  - cbn [cached_world].
    destruct (cache_find (PrimAt parent name transformable ops) entries)
      as [m|] eqn:Hfind.
    + cbn [fst snd]. split; [now apply Hcoh | exact Hcoh].
    + destruct (IH entries Hcoh) as [Hworld Hcoh'].
      destruct (cached_world time parent entries) as [pw entries'].
      cbn [fst snd] in *. subst pw. split; [reflexivity|].
      apply (coherent_cons time (PrimAt parent name transformable ops)).
      exact Hcoh'.
Qed.

Lemma GetLocalToWorldTransform_sound (cache : XformCache) (prim : Prim) :
  coherent (cache_time cache) (cache_entries cache) ->
  fst (GetLocalToWorldTransform cache prim)
  = ComputeLocalToWorldTransform prim (cache_time cache)
  /\ cache_time (snd (GetLocalToWorldTransform cache prim))
     = cache_time cache
  /\ coherent (cache_time cache)
              (cache_entries (snd (GetLocalToWorldTransform cache prim))).
Proof.
  intros Hcoh. unfold GetLocalToWorldTransform.
  destruct (cached_world_sound (cache_time cache) prim _ Hcoh) as [Hw Hc].
  destruct (cached_world (cache_time cache) prim (cache_entries cache))
    as [m entries'].
  cbn [fst snd cache_time cache_entries] in *. auto.
Qed.

(** The loop, whatever coherent cache and positions it starts from:
    one event and one position per prim, in the order of the input. *)
Lemma batch_loop_spec (prims : list Prim) :
  forall (cache : XformCache) (positions : list Vec3d),
    coherent (cache_time cache) (cache_entries cache) ->
    batch_loop cache prims positions
    = (map (batch_event (cache_time cache)) prims,
       Returned (positions
                 ++ map (batch_position (cache_time cache)) prims)%list).
Proof.
  induction prims as [|prim later IH]; intros cache positions Hcoh.
  - cbn [batch_loop map]. rewrite app_nil_r. reflexivity.
  - cbn [batch_loop map]. unfold batch_event at 1, batch_position at 1.
    destruct (IsA_Xformable prim) eqn:Hx; cbn [negb].
    + unfold cache_GetLocalToWorldTransform.
      destruct (GetLocalToWorldTransform_sound cache prim Hcoh)
        as (Hw & Ht & Hc).
      destruct (GetLocalToWorldTransform cache prim) as [w cache'].
      cbn [fst snd] in *. unfold bind.
      rewrite <- Ht in Hc. rewrite (IH cache' _ Hc), Ht, Hw.
      rewrite <- app_assoc. reflexivity.
    + unfold print, bind. rewrite (IH cache _ Hcoh).
      rewrite <- app_assoc. reflexivity.
Qed.

Lemma get_world_positions_batch_spec (prims : list Prim) (time : TimeCode) :
  get_world_positions_batch prims time
  = (map (batch_event time) prims,
     Returned (map (batch_position time) prims)).
Proof.
  unfold get_world_positions_batch.
  rewrite batch_loop_spec by apply coherent_nil. reflexivity.
Qed.

Lemma printed_batch_events (time : TimeCode) (prims : list Prim) :
  printed (map (batch_event time) prims)
  = map skipping_warning
        (filter (fun prim => negb (IsA_Xformable prim)) prims).
Proof.
  induction prims as [|prim later IH]; [reflexivity|].
  cbn [map filter]. unfold batch_event at 1.
  destruct (IsA_Xformable prim); cbn [negb printed map]; now rewrite IH.
Qed.

(** *** The batch query on valid prims; C4, C5 *)

(** On valid prims the batch query returns. Its printed lines are the
    warnings of the non-transformable prims, in order; the position of such
    a prim is the zero vector and every other position is the translation
    of the prim's world transform. *)
Lemma batch_returns_on_valid_prims (prims : list Prim) (time : TimeCode) :
  exists positions : list Vec3d,
    outcome (get_world_positions_batch prims time) = Returned positions
    /\ printed (events (get_world_positions_batch prims time))
       = map (fun prim => "Warning: Prim " ++ GetPath prim
                          ++ " is not transformable, skipping.")
             (filter (fun prim => negb (IsA_Xformable prim)) prims)
    /\ forall (i : nat) (prim : Prim),
         nth_error prims i = Some prim ->
         nth_error positions i
         = Some (if IsA_Xformable prim
                 then ExtractTranslation
                        (ComputeLocalToWorldTransform prim time)
                 else mkVec3d 0 0 0).
Proof.
  exists (map (batch_position time) prims).
  rewrite get_world_positions_batch_spec. cbn [outcome events fst snd].
  split; [reflexivity|]. split.
  - apply printed_batch_events.
  - intros i prim Hi. rewrite nth_error_map, Hi. reflexivity.
Qed.

(** A batch over a mix of valid prims: the [Scope] gets the zero vector
    and a warning, the [Child] after it its world position. *)
Lemma mixed_batch_of_valid_prims :
  exists positions : list Vec3d,
    get_world_positions_batch [Scope; Child] Default
    = ([Printed "Warning: Prim /World/Scope is not transformable, skipping.";
        XformRequested Child Default],
       Returned positions)
    /\ nth_error positions 0 = Some (mkVec3d 0 0 0)
    /\ nth_error positions 1
       = Some (ExtractTranslation
                 (ComputeLocalToWorldTransform Child Default)).
Proof.
  destruct (batch_returns_on_valid_prims [Scope; Child] Default)
    as (positions & Hout & _ & Hnth).
  exists positions. split.
  - rewrite get_world_positions_batch_spec in *.
    cbn [outcome snd] in Hout. injection Hout as <-. reflexivity.
  - split.
    + exact (Hnth 0%nat Scope eq_refl).
    + exact (Hnth 1%nat Child eq_refl).
Defined.

(** *** Prim objects that may be invalid *)

Lemma bind_ret {A B : Type} (a : A) (f : A -> M B) : bind (ret a) f = f a.
Proof. unfold bind, ret. destruct (f a). reflexivity. Qed.

Ltac on_valid_handle :=
  cbn [Handles.IsA_Xformable Handles.GetPath Handles.method
       Handles.Xformable_ComputeLocalToWorldTransform
       Handles.cache_GetLocalToWorldTransform];
  rewrite ?bind_ret.

(** On valid prim objects the queries are the queries on their prims. *)
Lemma Handles_get_world_position_valid (prim : Prim) (time : TimeCode) :
  Handles.get_world_position (Handles.ValidPrim prim) time
  = get_world_position prim time.
Proof.
  unfold Handles.get_world_position, get_world_position,
    not_transformable_message.
  on_valid_handle. destruct (IsA_Xformable prim); cbn [negb];
    on_valid_handle; reflexivity.
Qed.

Lemma Handles_components_valid (Rotation : Type)
  (ExtractRotation : Matrix4d -> Rotation) (prim : Prim) (time : TimeCode) :
  Handles.get_world_transform_components Rotation ExtractRotation
    (Handles.ValidPrim prim) time
  = get_world_transform_components Rotation ExtractRotation prim time.
Proof.
  unfold Handles.get_world_transform_components,
    get_world_transform_components, components_message.
  on_valid_handle. destruct (IsA_Xformable prim); cbn [negb];
    on_valid_handle; reflexivity.
Qed.

Lemma Handles_batch_loop_valid (prims : list Prim) :
  forall (cache : XformCache) (positions : list Vec3d),
    Handles.batch_loop cache (map Handles.ValidPrim prims) positions
    = batch_loop cache prims positions.
Proof.
  induction prims as [|prim later IH]; intros cache positions;
    [reflexivity|].
  cbn [map Handles.batch_loop batch_loop]. on_valid_handle.
  unfold skipping_warning.
  destruct (IsA_Xformable prim); cbn [negb]; on_valid_handle.
  - unfold cache_GetLocalToWorldTransform, bind.
    destruct (GetLocalToWorldTransform cache prim) as [w cache'].
    now rewrite IH.
  - unfold bind, print. now rewrite IH.
Qed.

Lemma Handles_batch_valid (prims : list Prim) (time : TimeCode) :
  Handles.get_world_positions_batch (map Handles.ValidPrim prims) time
  = get_world_positions_batch prims time.
Proof. apply Handles_batch_loop_valid. Qed.

(** The loop stops at the first invalid prim object: what the valid ones
    before it left behind stays, the error of the library comes out and
    the positions gathered so far are lost. *)
Lemma Handles_batch_loop_invalid (before : list Prim)
  (description : string) (after : list Handles.Handle) :
  forall (cache : XformCache) (positions : list Vec3d),
    coherent (cache_time cache) (cache_entries cache) ->
    Handles.batch_loop cache
      (map Handles.ValidPrim before
       ++ Handles.InvalidPrim description :: after)%list positions
    = (map (batch_event (cache_time cache)) before,
       Raised (RuntimeError ("Accessed " ++ description))).
Proof.
  induction before as [|prim later IH]; intros cache positions Hcoh.
  - reflexivity.
  - cbn [map app Handles.batch_loop]. on_valid_handle.
    unfold batch_event at 1, skipping_warning.
    destruct (IsA_Xformable prim); cbn [negb]; on_valid_handle.
    + unfold cache_GetLocalToWorldTransform.
      destruct (GetLocalToWorldTransform_sound cache prim Hcoh)
        as (_ & Ht & Hc).
      destruct (GetLocalToWorldTransform cache prim) as [w cache'].
      cbn [fst snd] in *. unfold bind.
      rewrite <- Ht in Hc. rewrite (IH cache' _ Hc), Ht. reflexivity.
    + unfold bind, print. rewrite (IH cache _ Hcoh). reflexivity.
Qed.

(** C3 does not hold of the batch query on every input: [prim.IsA] is
    called on every element without a guard, and on an invalid prim object
    it raises. A batch whose input holds an invalid prim object, after any
    valid prims and before anything else, raises the library's
    [RuntimeError] and returns no list: no zero vector is put in its place,
    no warning is printed for it, and the positions of the prims before it
    are lost. So it is for a child, the null prim and the parent in one
    batch. *)
Theorem C3_batch_raises_on_invalid_prim (before : list Prim)
  (description : string) (after : list Handles.Handle) (time : TimeCode) :
  Handles.get_world_positions_batch
    (map Handles.ValidPrim before
     ++ Handles.InvalidPrim description :: after)%list time
  = (map (batch_event time) before,
     Raised (RuntimeError ("Accessed " ++ description)))
  /\ Handles.get_world_positions_batch
       [Handles.ValidPrim Child; Handles.InvalidPrim "invalid null prim";
        Handles.ValidPrim Parent] Default
     = ([XformRequested Child Default],
        Raised (RuntimeError "Accessed invalid null prim")).
Proof.
  split.
  - unfold Handles.get_world_positions_batch.
    now rewrite Handles_batch_loop_invalid by apply coherent_nil.
  - exact (Handles_batch_loop_invalid [Child] "invalid null prim"
             [Handles.ValidPrim Parent] (XformCache_new Default) []
             (coherent_nil Default)).
Qed.

(** C4. On a list of transformable prims the batch output at every index
    is what [get_world_position] returns for the prim at that index. *)
Theorem C4_batch_single_equivalence (prims : list Prim) (time : TimeCode) :
  Forall (fun prim => IsA_Xformable prim = true) prims ->
  exists positions : list Vec3d,
    outcome (get_world_positions_batch prims time) = Returned positions
    /\ forall (i : nat) (prim : Prim),
         nth_error prims i = Some prim ->
         exists pos : Vec3d,
           nth_error positions i = Some pos
           /\ outcome (get_world_position prim time) = Returned pos.
Proof.
  intros Hall. exists (map (batch_position time) prims).
  rewrite get_world_positions_batch_spec. split; [reflexivity|].
  intros i prim Hi.
  assert (Hx : IsA_Xformable prim = true).
  { rewrite Forall_forall in Hall. apply Hall.
    eapply nth_error_In; exact Hi. }
  exists (batch_position time prim). split.
  - rewrite nth_error_map, Hi. reflexivity.
  - rewrite (get_world_position_transformable prim time Hx).
    unfold batch_position. rewrite Hx. reflexivity.
Qed.

(** Parent and child in one batch: the child's transform reuses the
    parent's cached one, and both positions are the single-query ones. *)
Lemma C4_parent_and_child :
  Forall (fun prim => IsA_Xformable prim = true) [Parent; Child]
  /\ exists positions : list Vec3d,
       outcome (get_world_positions_batch [Parent; Child] Default)
       = Returned positions
       /\ forall (i : nat) (prim : Prim),
            nth_error [Parent; Child] i = Some prim ->
            exists pos : Vec3d,
              nth_error positions i = Some pos
              /\ outcome (get_world_position prim Default) = Returned pos.
Proof.
  assert (Hall : Forall (fun prim => IsA_Xformable prim = true)
                        [Parent; Child]).
  { repeat constructor. }
  split; [exact Hall|].
  exact (C4_batch_single_equivalence [Parent; Child] Default Hall).
Defined.


(** *** C9: the two single-node queries agree on the translation *)

(** C9. On a transformable prim the translation returned by
    [get_world_transform_components] is the vector returned by
    [get_world_position]. *)
Theorem C9_components_translation (Rotation : Type)
  (ExtractRotation : Matrix4d -> Rotation) (prim : Prim) (time : TimeCode) :
  IsA_Xformable prim = true ->
  exists (translation : Vec3d) (rotation : Rotation) (scale : Vec3d),
    outcome (get_world_transform_components Rotation ExtractRotation
                                            prim time)
    = Returned (translation, rotation, scale)
    /\ outcome (get_world_position prim time) = Returned translation.
Proof.
  intros Hx.
  rewrite (components_transformable _ ExtractRotation prim time Hx).
  rewrite (get_world_position_transformable prim time Hx).
  cbn [outcome snd]. do 3 eexists. split; reflexivity.
Qed.

Lemma C9_child_translation :
  IsA_Xformable Child = true
  /\ exists (translation : Vec3d) (rotation : Matrix3d) (scale : Vec3d),
       outcome (get_world_transform_components
                  Matrix3d ExtractRotationMatrix Child Default)
       = Returned (translation, rotation, scale)
       /\ outcome (get_world_position Child Default) = Returned translation.
Proof.
  split; [reflexivity|].
  exact (C9_components_translation Matrix3d ExtractRotationMatrix
                                   Child Default eq_refl).
Defined.

(** *** C6, C10: the reported scale *)

Lemma GetLength_nonneg (v : Vec3d) : 0 <= GetLength v.
Proof. apply sqrt_pos. Qed.

Lemma GetLength_x_axis (x : R) : GetLength (mkVec3d x 0 0) = Rabs x.
Proof.
  unfold GetLength. cbn [vx vy vz].
  replace (x * x + 0 * 0 + 0 * 0) with (Rsqr x) by (unfold Rsqr; ring).
  apply sqrt_Rsqr_abs.
Qed.

Lemma GetLength_y_axis (y : R) : GetLength (mkVec3d 0 y 0) = Rabs y.
Proof.
  unfold GetLength. cbn [vx vy vz].
  replace (0 * 0 + y * y + 0 * 0) with (Rsqr y) by (unfold Rsqr; ring).
  apply sqrt_Rsqr_abs.
Qed.

Lemma GetLength_z_axis (z : R) : GetLength (mkVec3d 0 0 z) = Rabs z.
Proof.
  unfold GetLength. cbn [vx vy vz].
  replace (0 * 0 + 0 * 0 + z * z) with (Rsqr z) by (unfold Rsqr; ring).
  apply sqrt_Rsqr_abs.
Qed.

Lemma world_of_top_level (name : string) (transformable : bool)
  (ops : list XformOp) (time : TimeCode) :
  ComputeLocalToWorldTransform (PrimAt World name transformable ops) time
  = GetLocalTransformation ops time.
Proof.
  unfold World. cbn [ComputeLocalToWorldTransform GetLocalTransformation].
  now autorewrite with gf.
Qed.

Lemma world_ShearedCube :
  ComputeLocalToWorldTransform ShearedCube Default = shear_matrix.
Proof.
  unfold ShearedCube. rewrite world_of_top_level. eval_scene.
  now autorewrite with gf.
Qed.

Lemma world_ScaledCube :
  ComputeLocalToWorldTransform ScaledCube Default
  = SetScale (mkVec3d 1 (sqrt 2) 1).
Proof.
  unfold ScaledCube. rewrite world_of_top_level. eval_scene.
  now autorewrite with gf.
Qed.

(** C6. On a transformable prim the scale returned by
    [get_world_transform_components] holds the Euclidean lengths of the
    three rows of the upper-left 3x3 block of the world matrix, taken as
    they are. Shear is lost: a sheared cube and a cube that is only scaled
    have different world matrices and are given the same scale. *)
Theorem C6_scale_is_row_lengths (Rotation : Type)
  (ExtractRotation : Matrix4d -> Rotation) (prim : Prim) (time : TimeCode) :
  IsA_Xformable prim = true ->
  (exists (translation : Vec3d) (rotation : Rotation),
     let w := ComputeLocalToWorldTransform prim time in
     outcome (get_world_transform_components Rotation ExtractRotation
                                             prim time)
     = Returned
         (translation, rotation,
          mkVec3d
            (sqrt (wx (row0 w) * wx (row0 w) + wy (row0 w) * wy (row0 w)
                   + wz (row0 w) * wz (row0 w)))
            (sqrt (wx (row1 w) * wx (row1 w) + wy (row1 w) * wy (row1 w)
                   + wz (row1 w) * wz (row1 w)))
            (sqrt (wx (row2 w) * wx (row2 w) + wy (row2 w) * wy (row2 w)
                   + wz (row2 w) * wz (row2 w)))))
  /\ ComputeLocalToWorldTransform ShearedCube Default
     <> ComputeLocalToWorldTransform ScaledCube Default
  /\ exists (t1 t2 : Vec3d) (r1 r2 : Rotation) (scale : Vec3d),
       outcome (get_world_transform_components Rotation ExtractRotation
                                               ShearedCube Default)
       = Returned (t1, r1, scale)
       /\ outcome (get_world_transform_components Rotation ExtractRotation
                                                  ScaledCube Default)
          = Returned (t2, r2, scale).
Proof.
  intros Hx. split; [|split].
  - rewrite (components_transformable _ ExtractRotation prim time Hx).
    do 2 eexists. reflexivity.
  - rewrite world_ShearedCube, world_ScaledCube. intros Heq.
    apply (f_equal (fun m => wx (row1 m))) in Heq.
    unfold shear_matrix, SetScale in Heq. cbn [row1 wx] in Heq. lra.
  - rewrite (components_transformable _ ExtractRotation ShearedCube Default
                                      eq_refl).
    rewrite (components_transformable _ ExtractRotation ScaledCube Default
                                      eq_refl).
    rewrite world_ShearedCube, world_ScaledCube.
    cbn [outcome snd]. do 5 eexists. split; [reflexivity|].
    do 2 f_equal.
    unfold shear_matrix, SetScale, xyz, GetLength.
    cbn [row0 row1 row2 wx wy wz vx vy vz].
    f_equal.
    replace (1 * 1 + 1 * 1 + 0 * 0) with 2 by ring.
    replace (0 * 0 + sqrt 2 * sqrt 2 + 0 * 0) with (sqrt 2 * sqrt 2) by ring.
    rewrite sqrt_square by apply sqrt_pos. reflexivity.
Qed.

Lemma C6_sheared_cube :
  IsA_Xformable ShearedCube = true
  /\ exists (translation : Vec3d) (rotation : Matrix3d),
       outcome (get_world_transform_components
                  Matrix3d ExtractRotationMatrix ShearedCube Default)
       = Returned (translation, rotation,
                   mkVec3d (sqrt (1 * 1 + 0 * 0 + 0 * 0))
                           (sqrt (1 * 1 + 1 * 1 + 0 * 0))
                           (sqrt (0 * 0 + 0 * 0 + 1 * 1))).
Proof.
  split; [reflexivity|].
  destruct (C6_scale_is_row_lengths Matrix3d ExtractRotationMatrix
              ShearedCube Default eq_refl) as [(t & r & Hout) _].
  exists t, r. cbv zeta in Hout. rewrite world_ShearedCube in Hout.
  exact Hout.
Defined.

(** C10. On a transformable prim every component of the scale returned by
    [get_world_transform_components] is non-negative. A prim under an
    untransformed parent whose only op is a scale by [v] is given the
    absolute values of the components of [v]: a mirroring scale comes back
    as its magnitude. *)
Theorem C10_scale_non_negative (Rotation : Type)
  (ExtractRotation : Matrix4d -> Rotation) (prim : Prim) (time : TimeCode) :
  IsA_Xformable prim = true ->
  (exists (translation : Vec3d) (rotation : Rotation) (scale : Vec3d),
     outcome (get_world_transform_components Rotation ExtractRotation
                                             prim time)
     = Returned (translation, rotation, scale)
     /\ 0 <= vx scale /\ 0 <= vy scale /\ 0 <= vz scale)
  /\ forall (parent : Prim) (name : string) (a : Attribute Vec3d)
            (v : Vec3d),
       ComputeLocalToWorldTransform parent time = Identity ->
       Get a time = Some v ->
       exists (translation : Vec3d) (rotation : Rotation),
         outcome (get_world_transform_components Rotation ExtractRotation
                    (PrimAt parent name true [ScaleOp a]) time)
         = Returned (translation, rotation,
                     mkVec3d (Rabs (vx v)) (Rabs (vy v)) (Rabs (vz v))).
Proof.
  intros Hx. split.
  - rewrite (components_transformable _ ExtractRotation prim time Hx).
    cbn [outcome snd]. do 3 eexists. split; [reflexivity|].
    cbn [vx vy vz]. repeat split; apply GetLength_nonneg.
  - intros parent name a v Hparent Ha.
    rewrite components_transformable by reflexivity.
    cbn [ComputeLocalToWorldTransform GetLocalTransformation Evaluate].
    rewrite Ha, Hparent. autorewrite with gf.
    cbn [outcome snd]. do 2 eexists. cbv zeta.
    unfold SetScale, xyz. cbn [row0 row1 row2 wx wy wz].
    now rewrite GetLength_x_axis, GetLength_y_axis, GetLength_z_axis.
Qed.

Lemma C10_mirrored_cube :
  IsA_Xformable MirroredCube = true
  /\ exists (translation : Vec3d) (rotation : Matrix3d),
       outcome (get_world_transform_components
                  Matrix3d ExtractRotationMatrix MirroredCube Default)
       = Returned (translation, rotation,
                   mkVec3d (Rabs (-2)) (Rabs 3) (Rabs 4)).
Proof.
  split; [reflexivity|].
  destruct (C10_scale_non_negative Matrix3d ExtractRotationMatrix
              MirroredCube Default eq_refl) as [_ Hmirror].
  apply (Hmirror World "Mirrored" (constant (mkVec3d (-2) 3 4))
                 (mkVec3d (-2) 3 4)).
  - unfold World. eval_scene. now autorewrite with gf.
  - reflexivity.
Defined.

(** *** C7: time samples *)

#[local] Instance LerpLaws_R : LerpLaws R.
Proof. split; intros a b; unfold lerp, Lerp_R; ring. Qed.

#[local] Instance LerpLaws_Vec3d : LerpLaws Vec3d.
Proof.
  split; intros [] []; unfold lerp, Lerp_Vec3d; cbn [vx vy vz];
    now rewrite ?lerp_0, ?lerp_1.
Qed.

#[local] Instance LerpLaws_Vec4d : LerpLaws Vec4d.
Proof.
  split; intros [] []; unfold lerp, Lerp_Vec4d; cbn [wx wy wz ww];
    now rewrite ?lerp_0, ?lerp_1.
Qed.

#[local] Instance LerpLaws_Matrix4d : LerpLaws Matrix4d.
Proof.
  split; intros [] []; unfold lerp, Lerp_Matrix4d;
    cbn [row0 row1 row2 row3]; now rewrite ?lerp_0, ?lerp_1.
Qed.

Section SamplingFacts.

Context {A : Type} `{LerpLaws A}.

(** Every sample after an increasing prefix is later than the start. *)
Lemma increasing_after_app (tb : R) (before : list (R * A)) (t0 : R) (v0 : A)
  (after : list (R * A)) :
  increasing_after tb (before ++ (t0, v0) :: after)%list ->
  tb < t0 /\ increasing_after t0 after.
Proof.
  revert tb. induction before as [|[tc vc] before IH]; intros tb; cbn.
  - tauto.
  - intros [Hlt Hinc]. destruct (IH tc Hinc) as [Hlt' Hafter].
    split; [lra | exact Hafter].
Qed.

Lemma interpolate_between (t tb : R) (vb : A) (before : list (R * A))
  (t0 : R) (v0 : A) (t1 : R) (v1 : A) (after : list (R * A)) :
  increasing_after tb (before ++ (t0, v0) :: (t1, v1) :: after)%list ->
  tb < t -> t0 <= t <= t1 ->
  interpolate t tb vb (before ++ (t0, v0) :: (t1, v1) :: after)%list
  = lerp ((t - t0) / (t1 - t0)) v0 v1.
Proof.
  revert tb vb. induction before as [|[tc vc] before IH];
    intros tb vb Hinc Hb Ht.
  - cbn [app interpolate]. cbn in Hinc. destruct Hinc as (Hb0 & H01 & _).
    destruct (Rle_dec t t0) as [Hle|Hgt].
    + assert (t = t0) by lra. subst t.
      replace ((t0 - tb) / (t0 - tb)) with 1 by (field; lra).
      replace ((t0 - t0) / (t1 - t0)) with 0 by (field; lra).
      now rewrite lerp_0, lerp_1.
    + destruct (Rle_dec t t1); [reflexivity | lra].
  - cbn [app interpolate]. cbn in Hinc. destruct Hinc as (Hbc & Hinc).
    destruct (increasing_after_app tc before t0 v0 _ Hinc) as [Hc0 _].
    destruct (Rle_dec t tc); [lra|].
    apply IH; [exact Hinc | lra | exact Ht].
Qed.

Lemma interpolate_after_last (t tb : R) (vb : A) (front : list (R * A))
  (tl : R) (vl : A) :
  increasing_after tb (front ++ [(tl, vl)])%list ->
  tl <= t ->
  interpolate t tb vb (front ++ [(tl, vl)])%list = vl.
Proof.
  revert tb vb. induction front as [|[tc vc] front IH];
    intros tb vb Hinc Ht.
  - cbn [app interpolate]. cbn in Hinc. destruct Hinc as [Hbl _].
    destruct (Rle_dec t tl) as [Hle|Hgt]; [|reflexivity].
    assert (t = tl) by lra. subst t.
    replace ((tl - tb) / (tl - tb)) with 1 by (field; lra).
    apply lerp_1.
  - cbn [app interpolate]. cbn in Hinc. destruct Hinc as (Hbc & Hinc).
    destruct (increasing_after_app tc front tl vl _ Hinc) as [Hcl _].
    destruct (Rle_dec t tc); [lra|].
    apply IH; [exact Hinc | exact Ht].
Qed.

(** Between two neighbouring samples: their linear interpolation. *)
Lemma sample_at_between (t : R) (before : list (R * A)) (t0 : R) (v0 : A)
  (t1 : R) (v1 : A) (after : list (R * A)) :
  increasing (before ++ (t0, v0) :: (t1, v1) :: after)%list ->
  t0 <= t <= t1 ->
  sample_at t (before ++ (t0, v0) :: (t1, v1) :: after)%list
  = Some (lerp ((t - t0) / (t1 - t0)) v0 v1).
Proof.
  intros Hinc Ht. destruct before as [|[tb vb] before].
  - cbn [app sample_at]. cbn in Hinc. destruct Hinc as [H01 _].
    destruct (Rle_dec t t0) as [Hle|Hgt].
    + assert (t = t0) by lra. subst t.
      replace ((t0 - t0) / (t1 - t0)) with 0 by (field; lra).
      now rewrite lerp_0.
    + cbn [interpolate]. destruct (Rle_dec t t1); [reflexivity | lra].
  - cbn [app sample_at]. cbn [app increasing] in Hinc.
    destruct (increasing_after_app tb before t0 v0 _ Hinc) as [Hb0 _].
    destruct (Rle_dec t tb); [lra|].
    f_equal. apply interpolate_between; [exact Hinc | lra | exact Ht].
Qed.

(** Before the first sample: its value. *)
Lemma sample_at_before_first (t tf : R) (vf : A) (later : list (R * A)) :
  t <= tf -> sample_at t ((tf, vf) :: later) = Some vf.
Proof.
  intros Ht. cbn [sample_at]. destruct (Rle_dec t tf); [reflexivity | lra].
Qed.

(** After the last sample: its value. *)
Lemma sample_at_after_last (t : R) (front : list (R * A)) (tl : R) (vl : A) :
  increasing (front ++ [(tl, vl)])%list ->
  tl <= t ->
  sample_at t (front ++ [(tl, vl)])%list = Some vl.
Proof.
  intros Hinc Ht. destruct front as [|[tb vb] front].
  - cbn [app sample_at]. destruct (Rle_dec t tl); reflexivity.
  - cbn [app sample_at]. cbn [app increasing] in Hinc.
    destruct (increasing_after_app tb front tl vl _ Hinc) as [Hbl _].
    destruct (Rle_dec t tb); [lra|].
    f_equal. apply interpolate_after_last; assumption.
Qed.

End SamplingFacts.

Lemma Get_samples {A : Type} `{Lerp A} (default : option A)
  (samples : list (R * A)) (t : R) :
  samples <> [] ->
  Get (mkAttribute default samples) (Time t) = sample_at t samples.
Proof.
  intros Hne. cbn [Get time_samples].
  destruct samples; [contradiction | reflexivity].
Qed.

Ltac decide_Rle :=
  repeat match goal with
    | |- context [Rle_dec ?a ?b] => destruct (Rle_dec a b); try lra
    end.

Lemma animated_at_25 :
  Get animated_translate (Time 25) = Some (mkVec3d 25 0 0).
Proof.
  unfold animated_translate.
  cbn [Get time_samples sample_at interpolate]. decide_Rle.
  f_equal. unfold lerp, Lerp_Vec3d, lerp, Lerp_R. cbn [vx vy vz].
  split_components; field.
Qed.

Lemma animated_at_150 :
  Get animated_translate (Time 150) = Some (mkVec3d 100 0 0).
Proof.
  unfold animated_translate.
  cbn [Get time_samples sample_at interpolate]. decide_Rle.
  reflexivity.
Qed.

Lemma position_of_translated_cube (name : string) (a : Attribute Vec3d)
  (time : TimeCode) (v : Vec3d) :
  Get a time = Some v ->
  outcome (get_world_position (PrimAt World name true [TranslateOp a]) time)
  = Returned v.
Proof.
  intros Ha. rewrite get_world_position_transformable by reflexivity.
  rewrite world_of_top_level, (local_single_translate a time v Ha).
  now autorewrite with gf.
Qed.

(** C7. A value with time samples in increasing order, read at a numeric
    time: between two neighbouring samples it is their linear
    interpolation, which on vectors is taken component by component; at or
    before the first sample it is the first value and at or after the last
    sample the last value. The translate op sampled
    {0: (0,0,0), 50: (50,0,0), 100: (100,0,0)} puts its prim at (25,0,0) at
    time 25 and at (100,0,0) at time 150. *)
Theorem C7_time_interpolation {A : Type} `{LerpLaws A}
  (default : option A) (before after : list (R * A))
  (t0 t1 : R) (v0 v1 : A) (t : R) :
  increasing (before ++ (t0, v0) :: (t1, v1) :: after)%list ->
  (t0 <= t <= t1 ->
   Get (mkAttribute default (before ++ (t0, v0) :: (t1, v1) :: after)%list)
       (Time t)
   = Some (lerp ((t - t0) / (t1 - t0)) v0 v1))
  /\ (forall (tf : R) (vf : A) (later : list (R * A)),
        (before ++ (t0, v0) :: (t1, v1) :: after)%list = (tf, vf) :: later ->
        t <= tf ->
        Get (mkAttribute default
                         (before ++ (t0, v0) :: (t1, v1) :: after)%list)
            (Time t)
        = Some vf)
  /\ (forall (front : list (R * A)) (tl : R) (vl : A),
        (before ++ (t0, v0) :: (t1, v1) :: after)%list
        = (front ++ [(tl, vl)])%list ->
        tl <= t ->
        Get (mkAttribute default
                         (before ++ (t0, v0) :: (t1, v1) :: after)%list)
            (Time t)
        = Some vl)
  /\ (forall (alpha : R) (a b : Vec3d),
        lerp alpha a b
        = mkVec3d ((1 - alpha) * vx a + alpha * vx b)
                  ((1 - alpha) * vy a + alpha * vy b)
                  ((1 - alpha) * vz a + alpha * vz b))
  /\ outcome (get_world_position AnimatedCube (Time 25))
     = Returned (mkVec3d 25 0 0)
  /\ outcome (get_world_position AnimatedCube (Time 150))
     = Returned (mkVec3d 100 0 0).
Proof.
  intros Hinc.
  assert (Hne : (before ++ (t0, v0) :: (t1, v1) :: after)%list <> []).
  { destruct before; discriminate. }
  rewrite (Get_samples default _ t Hne).
  repeat split.
  - intros Ht. now apply sample_at_between.
  - intros tf vf later -> Ht. now apply sample_at_before_first.
  - intros front tl vl Heq Ht. rewrite Heq in Hinc |- *.
    now apply sample_at_after_last.
  - apply position_of_translated_cube, animated_at_25.
  - apply position_of_translated_cube, animated_at_150.
Qed.

(** The animated cube at time 25, between its samples at 0 and 50. *)
Lemma C7_animated_cube_at_25 :
  increasing (time_samples animated_translate)
  /\ 0 <= 25 <= 50
  /\ Get animated_translate (Time 25)
     = Some (lerp ((25 - 0) / (50 - 0)) (mkVec3d 0 0 0) (mkVec3d 50 0 0)).
Proof.
  assert (Hinc : increasing (time_samples animated_translate)).
  { cbn [animated_translate time_samples increasing increasing_after].
    repeat split; lra. }
  assert (Ht : 0 <= 25 <= 50) by lra.
  split; [exact Hinc|]. split; [exact Ht|].
  exact (proj1 (C7_time_interpolation None [] [(100, mkVec3d 100 0 0)]
                  0 50 (mkVec3d 0 0 0) (mkVec3d 50 0 0) 25 Hinc) Ht).
Defined.

(** *** C8: a scale op with a zero component *)

Lemma FlatCube_degenerate :
  has_degenerate_scale (GetOrderedXformOps FlatCube) Default.
Proof.
  exists (constant (mkVec3d 0 1 1)), (mkVec3d 0 1 1).
  split; [right; left; reflexivity|].
  split; [reflexivity | left; reflexivity].
Qed.

(** C8, as stated, fails: the flattened cube has a scale op with a zero
    component, and [get_world_position] on it prints nothing. *)
Lemma C8_flat_cube_prints_nothing :
  ~ (forall (parent : Prim) (name : string) (ops : list XformOp)
            (time : TimeCode),
       has_degenerate_scale ops time ->
       (exists line : string,
          In line (printed (events (get_world_position
                                      (PrimAt parent name true ops) time))))
       /\ exists pos : Vec3d,
            outcome (get_world_position (PrimAt parent name true ops) time)
            = Returned pos).
Proof.
  intros Hclaim.
  destruct (Hclaim World "Flat" (GetOrderedXformOps FlatCube) Default
                   FlatCube_degenerate) as [[line Hin] _].
  rewrite get_world_position_transformable in Hin by reflexivity.
  exact Hin.
Qed.

Lemma GetDeterminant_mult (a b : Matrix4d) :
  GetDeterminant (Matrix4d_mult a b) = GetDeterminant a * GetDeterminant b.
Proof.
  destruct a as [[] [] [] []], b as [[] [] [] []].
  unfold GetDeterminant, det3. unfold_gf. ring.
Qed.

Lemma GetDeterminant_Identity : GetDeterminant Identity = 1.
Proof. unfold GetDeterminant, det3. unfold_gf. ring. Qed.

Lemma GetDeterminant_SetScale (v : Vec3d) :
  GetDeterminant (SetScale v) = vx v * vy v * vz v.
Proof. destruct v. unfold GetDeterminant, det3. unfold_gf. ring. Qed.

(** A matrix of determinant zero has no inverse. *)
Lemma zero_determinant_non_invertible (m : Matrix4d) :
  GetDeterminant m = 0 -> non_invertible m.
Proof.
  intros Hdet [inverse [Hinv | Hinv]];
    apply (f_equal GetDeterminant) in Hinv;
    rewrite GetDeterminant_mult, GetDeterminant_Identity, Hdet in Hinv; lra.
Qed.

(** One scale op with a zero component makes the local matrix singular,
    wherever it stands among the ops. *)
Lemma degenerate_local (ops : list XformOp) (time : TimeCode) :
  has_degenerate_scale ops time ->
  GetDeterminant (GetLocalTransformation ops time) = 0.
Proof.
  intros (a & v & Hin & Hget & Hzero).
  induction ops as [|op later IH]; [contradiction|].
  cbn [GetLocalTransformation]. rewrite GetDeterminant_mult.
  destruct Hin as [-> | Hin].
  - cbn [Evaluate]. rewrite Hget, GetDeterminant_SetScale.
    destruct Hzero as [Hz | [Hz | Hz]]; rewrite Hz; ring.
  - rewrite (IH Hin). ring.
Qed.

Lemma degenerate_world (parent : Prim) (name : string)
  (transformable : bool) (ops : list XformOp) (time : TimeCode) :
  has_degenerate_scale ops time ->
  non_invertible
    (ComputeLocalToWorldTransform (PrimAt parent name transformable ops)
                                  time).
Proof.
  intros Hdeg. apply zero_determinant_non_invertible.
  cbn [ComputeLocalToWorldTransform].
  rewrite GetDeterminant_mult, (degenerate_local ops time Hdeg). ring.
Qed.

(** C8, amended. When a scale op of a transformable prim evaluates to a
    vector with a zero component, the world transform of the prim has no
    inverse, and the three queries go on with it: [get_world_position]
    returns its translation and [get_world_transform_components] its
    translation, rotation and row lengths; a batch holding the prim at any
    place returns, with that translation at the prim's index. None of them
    raises and nothing is printed for the prim: the only lines a batch
    prints are the warnings of the non-transformable prims around it. *)
Theorem C8_degenerate_scale_is_silent (Rotation : Type)
  (ExtractRotation : Matrix4d -> Rotation)
  (parent : Prim) (name : string) (ops : list XformOp) (time : TimeCode) :
  has_degenerate_scale ops time ->
  let prim := PrimAt parent name true ops in
  let w := ComputeLocalToWorldTransform prim time in
  non_invertible w
  /\ get_world_position prim time
     = ([XformRequested prim time], Returned (ExtractTranslation w))
  /\ get_world_transform_components Rotation ExtractRotation prim time
     = ([XformRequested prim time],
        Returned (ExtractTranslation w, ExtractRotation w,
                  mkVec3d (GetLength (xyz (row0 w)))
                          (GetLength (xyz (row1 w)))
                          (GetLength (xyz (row2 w)))))
  /\ forall before after : list Prim,
       exists positions : list Vec3d,
         outcome (get_world_positions_batch (before ++ prim :: after)%list
                                            time)
         = Returned positions
         /\ nth_error positions (List.length before)
            = Some (ExtractTranslation w)
         /\ printed (events (get_world_positions_batch
                               (before ++ prim :: after)%list time))
            = map (fun p => "Warning: Prim " ++ GetPath p
                            ++ " is not transformable, skipping.")
                  (filter (fun p => negb (IsA_Xformable p))
                          (before ++ after)%list).
Proof.
  intros Hdeg prim w. split; [|split; [|split]].
  - exact (degenerate_world parent name true ops time Hdeg).
  - now rewrite get_world_position_transformable by reflexivity.
  - now rewrite components_transformable by reflexivity.
  - intros before after. exists (map (batch_position time)
                                     (before ++ prim :: after)%list).
    rewrite get_world_positions_batch_spec. cbn [outcome events fst snd].
    split; [reflexivity|]. split.
    + rewrite nth_error_map, nth_error_app2 by lia.
      now rewrite Nat.sub_diag.
    + rewrite printed_batch_events, !filter_app. reflexivity.
Qed.

Lemma C8_flat_cube_returns :
  has_degenerate_scale (GetOrderedXformOps FlatCube) Default
  /\ non_invertible (ComputeLocalToWorldTransform FlatCube Default)
  /\ get_world_position FlatCube Default
     = ([XformRequested FlatCube Default],
        Returned (ExtractTranslation
                    (ComputeLocalToWorldTransform FlatCube Default))).
Proof.
  split; [exact FlatCube_degenerate|].
  destruct (C8_degenerate_scale_is_silent Matrix3d ExtractRotationMatrix
              World "Flat" (GetOrderedXformOps FlatCube) Default
              FlatCube_degenerate) as (Hsingular & Hpos & _).
  split; [exact Hsingular | exact Hpos].
Defined.

(** *** The remaining scenes of the test suite *)

(** [test_scale_affects_child_position]: parent translated by (10,0,0)
    then scaled by 2, child at local (5,0,0), world position (20,0,0). *)
Example scale_affects_child_position :
  outcome (get_world_position
             (PrimAt (PrimAt World "Parent" true
                        [translate 10 0 0;
                         ScaleOp (constant (mkVec3d 2 2 2))])
                     "Child" true [translate 5 0 0])
             Default)
  = Returned (mkVec3d 20 0 0).
Proof.
  rewrite get_world_position_transformable by reflexivity.
  unfold World, translate. eval_scene. cbn [outcome snd]. f_equal.
  autorewrite with gf. gf_ring.
Qed.

(** [test_rotation_affects_child_position]: parent rotated by 90 degrees
    about z, child at local (10,0,0), world position (0,10,0). *)
Example rotation_affects_child_position :
  outcome (get_world_position
             (PrimAt (PrimAt World "Parent" true [RotateZOp (constant 90)])
                     "Child" true [translate 10 0 0])
             Default)
  = Returned (mkVec3d 0 10 0).
Proof.
  rewrite get_world_position_transformable by reflexivity.
  unfold World, translate. eval_scene. unfold SetRotateZ, radians.
  replace (90 * PI / 180) with (PI / 2) by field.
  rewrite cos_PI2, sin_PI2. cbn [outcome snd]. f_equal.
  autorewrite with gf. gf_ring.
Qed.

(** [test_default_time_vs_specific_time]: a default of (10,0,0) next to a
    sample (50,0,0) at time 100. *)
Example default_time_vs_specific_time :
  let cube :=
    PrimAt World "Cube" true
      [TranslateOp (mkAttribute (Some (mkVec3d 10 0 0))
                                [(100, mkVec3d 50 0 0)])] in
  outcome (get_world_position cube Default) = Returned (mkVec3d 10 0 0)
  /\ outcome (get_world_position cube (Time 100))
     = Returned (mkVec3d 50 0 0).
Proof.
  cbv zeta. split; apply position_of_translated_cube.
  - reflexivity.
  - cbn [Get time_samples sample_at]. decide_Rle. reflexivity.
Qed.

(* ================================================================== *)
(** ** Further properties of the query functions *)
(* ================================================================== *)

(** *** The batch query *)




(** *** The traditional three steps *)

(** X3. On a transformable prim [get_world_position] does what the
    traditional three steps do: the same request and the same position. *)
Theorem X3_matches_traditional (prim : Prim) (time : TimeCode) :
  IsA_Xformable prim = true ->
  get_world_position prim time = traditional_get_position prim time.
Proof.
  intros Hx. now rewrite (get_world_position_transformable prim time Hx).
Qed.

Lemma X3_child_matches_traditional :
  IsA_Xformable Child = true
  /\ get_world_position Child Default
     = traditional_get_position Child Default.
Proof.
  split; [reflexivity|]. exact (X3_matches_traditional Child Default eq_refl).
Defined.

(** *** Hierarchies without animation *)

Lemma Get_static {A : Type} `{Lerp A} (a : Attribute A)
  (t1 t2 : TimeCode) :
  time_samples a = [] -> Get a t1 = Get a t2.
Proof.
  intros Hs.
  assert (Hget : forall t, Get a t = default_value a).
  { intros [|t]; cbn [Get]; rewrite Hs; [|reflexivity].
    destruct (default_value a); reflexivity. }
  now rewrite !Hget.
Qed.

Lemma Evaluate_static (op : XformOp) (t1 t2 : TimeCode) :
  static_op op -> Evaluate op t1 = Evaluate op t2.
Proof.
  destruct op; cbn [static_op Evaluate]; intros Hs;
    now rewrite (Get_static _ t1 t2 Hs).
Qed.

Lemma GetLocalTransformation_static (ops : list XformOp)
  (t1 t2 : TimeCode) :
  Forall static_op ops ->
  GetLocalTransformation ops t1 = GetLocalTransformation ops t2.
Proof.
  induction 1 as [|op later Hop _ IH]; [reflexivity|].
  cbn [GetLocalTransformation].
  now rewrite IH, (Evaluate_static op t1 t2 Hop).
Qed.

Lemma world_static (prim : Prim) (t1 t2 : TimeCode) :
  static prim ->
  ComputeLocalToWorldTransform prim t1 = ComputeLocalToWorldTransform prim t2.
Proof.
  induction prim as [|parent IH name transformable ops]; [reflexivity|].
  cbn [static ComputeLocalToWorldTransform]. intros [Hops Hparent].
  now rewrite (IH Hparent), (GetLocalTransformation_static ops t1 t2 Hops).
Qed.

Lemma batch_position_static (prim : Prim) (t1 t2 : TimeCode) :
  static prim -> batch_position t1 prim = batch_position t2 prim.
Proof.
  intros Hs. unfold batch_position. now rewrite (world_static prim t1 t2 Hs).
Qed.

(** X4. When no op of the queried prims or of their ancestors has time
    samples, the time passed to the queries does not matter: the batch
    returns the same positions at any two times, and each single-node
    query returns the same result, or raises the same error. *)
Theorem X4_static_time_irrelevant (Rotation : Type)
  (ExtractRotation : Matrix4d -> Rotation)
  (prims : list Prim) (t1 t2 : TimeCode) :
  Forall static prims ->
  outcome (get_world_positions_batch prims t1)
  = outcome (get_world_positions_batch prims t2)
  /\ forall prim : Prim,
       In prim prims ->
       outcome (get_world_position prim t1)
       = outcome (get_world_position prim t2)
       /\ outcome (get_world_transform_components Rotation ExtractRotation
                                                  prim t1)
          = outcome (get_world_transform_components Rotation ExtractRotation
                                                    prim t2).
Proof.
  intros Hall. split.
  - rewrite !get_world_positions_batch_spec. cbn [outcome snd]. f_equal.
    apply map_ext_in. intros prim Hin. apply batch_position_static.
    rewrite Forall_forall in Hall. now apply Hall.
  - intros prim Hin.
    assert (Hs : static prim) by (rewrite Forall_forall in Hall; now apply Hall).
    destruct (IsA_Xformable prim) eqn:Hx.
    + rewrite !(get_world_position_transformable prim _ Hx).
      rewrite !(components_transformable _ ExtractRotation prim _ Hx).
      cbn [outcome snd]. now rewrite (world_static prim t1 t2 Hs).
    + rewrite !(get_world_position_not_transformable prim _ Hx).
      rewrite !(components_not_transformable _ ExtractRotation prim _ Hx).
      split; reflexivity.
Qed.

Lemma X4_static_scene :
  Forall static [Parent; Child; Scope]
  /\ outcome (get_world_positions_batch [Parent; Child; Scope] Default)
     = outcome (get_world_positions_batch [Parent; Child; Scope] (Time 24)).
Proof.
  assert (Hall : Forall static [Parent; Child; Scope]).
  { repeat constructor. }
  split; [exact Hall|].
  exact (proj1 (X4_static_time_irrelevant Matrix3d ExtractRotationMatrix
                  [Parent; Child; Scope] Default (Time 24) Hall)).
Defined.

(** *** Values at the sample times and at the default time *)

Lemma increasing_neighbours {A : Type} (before : list (R * A)) (t0 : R)
  (v0 : A) (t1 : R) (v1 : A) (after : list (R * A)) :
  increasing (before ++ (t0, v0) :: (t1, v1) :: after)%list -> t0 < t1.
Proof.
  destruct before as [|[tb vb] before]; cbn [app increasing].
  - cbn. tauto.
  - intros Hinc.
    destruct (increasing_after_app tb before t0 v0 _ Hinc) as [_ Hafter].
    cbn in Hafter. tauto.
Qed.

(** At the time of a sample the value read is the value of the sample. *)
Lemma sample_at_exact {A : Type} `{LerpLaws A} (samples : list (R * A))
  (t : R) (v : A) :
  increasing samples -> In (t, v) samples -> sample_at t samples = Some v.
Proof.
  intros Hinc Hin. apply in_split in Hin as (before & after & ->).
  destruct after as [|[t1 v1] after].
  - apply sample_at_after_last; [exact Hinc | lra].
  - pose proof (increasing_neighbours _ _ _ _ _ _ Hinc) as Hlt.
    rewrite sample_at_between by (try exact Hinc; lra).
    replace ((t - t) / (t1 - t)) with 0 by (unfold Rdiv; ring).
    now rewrite lerp_0.
Qed.

(** X5. Reading back what was authored: a prim under [/World] whose only
    op is a translate with time samples in increasing order is, at the time
    of any of its samples, exactly at the value of that sample; with a
    default value authored next to the samples it is at the default value
    at the default time. *)
Theorem X5_position_at_sample_times (name : string)
  (default : option Vec3d) (samples : list (R * Vec3d)) :
  increasing samples ->
  (forall (t : R) (v : Vec3d),
     In (t, v) samples ->
     outcome (get_world_position
                (PrimAt World name true
                        [TranslateOp (mkAttribute default samples)])
                (Time t))
     = Returned v)
  /\ (forall d : Vec3d,
        default = Some d ->
        outcome (get_world_position
                   (PrimAt World name true
                           [TranslateOp (mkAttribute default samples)])
                   Default)
        = Returned d).
Proof.
  intros Hinc. split.
  - intros t v Hin. apply position_of_translated_cube.
    rewrite Get_samples by (intros ->; exact Hin).
    now apply sample_at_exact.
  - intros d ->. now apply position_of_translated_cube.
Qed.

(** [test_position_at_different_times]: the animated cube at frame 50. *)
Lemma X5_animated_cube_at_50 :
  increasing (time_samples animated_translate)
  /\ outcome (get_world_position AnimatedCube (Time 50))
     = Returned (mkVec3d 50 0 0).
Proof.
  assert (Hinc : increasing (time_samples animated_translate)).
  { cbn [animated_translate time_samples increasing increasing_after].
    repeat split; lra. }
  split; [exact Hinc|].
  apply (proj1 (X5_position_at_sample_times "Cube" None _ Hinc)).
  right; left; reflexivity.
Defined.

(** *** Accumulation along the hierarchy *)

Lemma ops_translation_local (ops : list XformOp) (time : TimeCode) :
  forall v, ops_translation ops time = Some v ->
            GetLocalTransformation ops time = SetTranslate v.
Proof.
  induction ops as [|op later IH]; intros v Hv.
  - injection Hv as <-. reflexivity.
  - destruct op; try discriminate Hv. cbn [ops_translation] in Hv.
    cbn [GetLocalTransformation Evaluate].
    destruct (Get value time) as [v1|]; [|discriminate Hv].
    destruct (ops_translation later time) as [rest|]; [|discriminate Hv].
    injection Hv as <-. rewrite (IH rest eq_refl).
    apply SetTranslate_mult.
Qed.

Lemma total_translation_world (prim : Prim) (time : TimeCode) :
  forall v, total_translation prim time = Some v ->
            ComputeLocalToWorldTransform prim time = SetTranslate v.
Proof.
  induction prim as [|parent IH name transformable ops]; intros v Hv.
  - injection Hv as <-. reflexivity.
  - cbn [total_translation] in Hv. cbn [ComputeLocalToWorldTransform].
    destruct (total_translation parent time) as [above|];
      [|discriminate Hv].
    destruct (ops_translation ops time) as [own|] eqn:Hown;
      [|discriminate Hv].
    injection Hv as <-.
    rewrite (ops_translation_local ops time own Hown), (IH above eq_refl).
    apply SetTranslate_mult.
Qed.

(** X6. When a transformable prim and all its ancestors carry nothing but
    translations, however many levels and ops there are, its world position
    is the sum of all of them; with no op anywhere it is the origin. *)
Theorem X6_translations_accumulate (prim : Prim) (time : TimeCode)
  (v : Vec3d) :
  IsA_Xformable prim = true ->
  total_translation prim time = Some v ->
  outcome (get_world_position prim time) = Returned v.
Proof.
  intros Hx Hv. rewrite (get_world_position_transformable prim time Hx).
  rewrite (total_translation_world prim time v Hv).
  cbn [outcome snd]. now rewrite ExtractTranslation_SetTranslate.
Qed.

(** [test_multi_level_hierarchy]: (10,0,0), (0,20,0), (0,0,30) and (1,2,3)
    add up to (11,22,33). *)
Lemma X6_multi_level_hierarchy :
  IsA_Xformable Level3Child = true
  /\ total_translation Level3Child Default = Some (mkVec3d 11 22 33)
  /\ outcome (get_world_position Level3Child Default)
     = Returned (mkVec3d 11 22 33).
Proof.
  assert (Hsum : total_translation Level3Child Default
                 = Some (mkVec3d 11 22 33)).
  { unfold Level3Child, Level3, Level2, Level1, World, translate.
    cbn [total_translation ops_translation Get constant default_value
         time_samples].
    f_equal. unfold Vec3d_add. cbn [vx vy vz]. split_components; ring. }
  split; [reflexivity|]. split; [exact Hsum|].
  exact (X6_translations_accumulate Level3Child Default _ eq_refl Hsum).
Defined.

(** X7. The world position of a prim whose only op is a translation by [c]
    is the point [c] carried through the world transform of its parent,
    whatever rotation, scale or translation that transform holds. *)
Theorem X7_child_through_parent (parent : Prim) (name : string)
  (a : Attribute Vec3d) (c : Vec3d) (time : TimeCode) :
  Get a time = Some c ->
  outcome (get_world_position (PrimAt parent name true [TranslateOp a]) time)
  = Returned (Transform c (ComputeLocalToWorldTransform parent time)).
Proof.
  intros Hc. rewrite get_world_position_transformable by reflexivity.
  cbn [ComputeLocalToWorldTransform outcome snd].
  rewrite (local_single_translate a time c Hc). reflexivity.
Qed.

Lemma world_RotatedParent :
  ComputeLocalToWorldTransform RotatedParent Default
  = mkMatrix4d (mkVec4d 0 1 0 0) (mkVec4d (- (1)) 0 0 0)
               (mkVec4d 0 0 1 0) (mkVec4d 0 0 0 1).
Proof.
  unfold RotatedParent. rewrite world_of_top_level. eval_scene.
  autorewrite with gf. unfold SetRotateZ, radians.
  replace (90 * PI / 180) with (PI / 2) by field.
  now rewrite cos_PI2, sin_PI2.
Qed.

(** [test_rotation_affects_child_position]: (10,0,0) under a parent
    rotated by 90 degrees about z is at (0,10,0). *)
Lemma X7_rotated_child :
  Get (constant (mkVec3d 10 0 0)) Default = Some (mkVec3d 10 0 0)
  /\ outcome (get_world_position RotatedChild Default)
     = Returned (mkVec3d 0 10 0).
Proof.
  split; [reflexivity|].
  unfold RotatedChild, translate.
  rewrite (X7_child_through_parent RotatedParent "Child"
             (constant (mkVec3d 10 0 0)) (mkVec3d 10 0 0) Default eq_refl).
  rewrite world_RotatedParent. f_equal. unfold Transform. gf_ring.
Defined.

(** *** Decomposition of a translate-rotate-scale prim *)

Lemma GetLength_of_square (e1 e2 e3 x : R) :
  e1 * e1 + e2 * e2 + e3 * e3 = x * x ->
  GetLength (mkVec3d e1 e2 e3) = Rabs x.
Proof.
  intros Heq. unfold GetLength. cbn [vx vy vz]. rewrite Heq.
  apply sqrt_Rsqr_abs.
Qed.

Lemma cos_sin_unit (x : R) : cos x * cos x + sin x * sin x = 1.
Proof.
  pose proof (sin2_cos2 x) as Hunit. unfold Rsqr in Hunit. lra.
Qed.

(** The decomposition of a world matrix [scale * rotation * translate],
    for a rotation with unit rows [(a, b, c)] written out. *)
Ltac unit_row Hunit :=
  apply GetLength_of_square;
  first
    [ ring
    | match goal with
      | |- _ = ?x * ?x =>
          match type of Hunit with
          | ?u = 1 =>
              transitivity (x * x * u); [ring | rewrite Hunit; ring]
          end
      end ].

Lemma components_of_world (Rotation : Type)
  (ExtractRotation : Matrix4d -> Rotation) (prim : Prim) (time : TimeCode)
  (w : Matrix4d) :
  IsA_Xformable prim = true ->
  ComputeLocalToWorldTransform prim time = w ->
  outcome (get_world_transform_components Rotation ExtractRotation
                                          prim time)
  = Returned (ExtractTranslation w, ExtractRotation w,
              mkVec3d (GetLength (xyz (row0 w))) (GetLength (xyz (row1 w)))
                      (GetLength (xyz (row2 w)))).
Proof.
  intros Hx <-.
  now rewrite (components_transformable _ ExtractRotation prim time Hx).
Qed.

Lemma trs_world (parent : Prim) (name : string) (t_op r_op s_op : XformOp)
  (time : TimeCode) :
  ComputeLocalToWorldTransform parent time = Identity ->
  ComputeLocalToWorldTransform
    (PrimAt parent name true [t_op; r_op; s_op]) time
  = Matrix4d_mult
      (Matrix4d_mult (Evaluate s_op time) (Evaluate r_op time))
      (Evaluate t_op time).
Proof.
  intros Hparent. cbn [ComputeLocalToWorldTransform GetLocalTransformation].
  rewrite Hparent. now autorewrite with gf.
Qed.

(** X8. For a prim under an untransformed parent with the ops translate,
    then a rotation about one axis, then scale,
    [get_world_transform_components] gives back the authored translation
    and the magnitudes of the authored scale, whatever the angle. *)
Theorem X8_translate_rotate_scale (Rotation : Type)
  (ExtractRotation : Matrix4d -> Rotation)
  (parent : Prim) (name : string)
  (ta : Attribute Vec3d) (ra : Attribute R) (sa : Attribute Vec3d)
  (t : Vec3d) (degrees : R) (s : Vec3d) (time : TimeCode) :
  ComputeLocalToWorldTransform parent time = Identity ->
  Get ta time = Some t ->
  Get ra time = Some degrees ->
  Get sa time = Some s ->
  forall rotate : Attribute R -> XformOp,
    rotate = RotateXOp \/ rotate = RotateYOp \/ rotate = RotateZOp ->
    exists rotation : Rotation,
      outcome (get_world_transform_components Rotation ExtractRotation
                 (PrimAt parent name true
                         [TranslateOp ta; rotate ra; ScaleOp sa]) time)
      = Returned (t, rotation,
                  mkVec3d (Rabs (vx s)) (Rabs (vy s)) (Rabs (vz s))).
Proof.
  intros Hparent Ht Hr Hs rotate Hrotate.
  pose proof (cos_sin_unit (radians degrees)) as Hunit.
  destruct t as [tx ty tz], s as [sx sy sz].
  destruct Hrotate as [-> | [-> | ->]];
    eexists;
    (erewrite components_of_world;
       [| reflexivity | apply trs_world; exact Hparent]);
    cbn [Evaluate]; rewrite Ht, Hr, Hs;
    unfold SetRotateX, SetRotateY, SetRotateZ;
    set (c := cos (radians degrees)) in *;
    set (sn := sin (radians degrees)) in *;
    apply (f_equal Returned);
    (apply f_equal2; [apply f_equal2; [gf_ring | reflexivity]|]);
    unfold_gf; f_equal; unit_row Hunit.
Qed.

(** [test_transform_decomposition]: translate (10,20,30), 45 degrees
    about y, scale (2,3,4). *)
Lemma X8_decomposed_cube :
  ComputeLocalToWorldTransform World Default = Identity
  /\ exists rotation : Matrix3d,
       outcome (get_world_transform_components
                  Matrix3d ExtractRotationMatrix DecomposedCube Default)
       = Returned (mkVec3d 10 20 30, rotation,
                   mkVec3d (Rabs 2) (Rabs 3) (Rabs 4)).
Proof.
  assert (Hworld : ComputeLocalToWorldTransform World Default = Identity).
  { unfold World. eval_scene. now autorewrite with gf. }
  split; [exact Hworld|].
  exact (X8_translate_rotate_scale Matrix3d ExtractRotationMatrix
           World "Cube" (constant (mkVec3d 10 20 30)) (constant 45)
           (constant (mkVec3d 2 3 4)) (mkVec3d 10 20 30) 45 (mkVec3d 2 3 4)
           Default Hworld eq_refl eq_refl eq_refl
           RotateYOp (or_intror (or_introl eq_refl))).
Defined.

(** *** The Omniverse Kit variant *)

Lemma position_DefaultAndSampleCube_at_100 :
  outcome (get_world_position DefaultAndSampleCube (Time 100))
  = Returned (mkVec3d 50 0 0).
Proof.
  apply position_of_translated_cube. unfold default_and_sample.
  cbn [Get time_samples sample_at]. decide_Rle. reflexivity.
Qed.

(** X9. [get_world_position_omniverse] raises [ImportError] when
    [omni.usd] cannot be imported, whatever the prim. When it can, the
    prim is not checked and the [time] argument has no effect, whatever
    the Kit function computes: the call returns for every prim and gives
    the same result at any two times. If the Kit function computes the
    world transform at the default time, the result on a transformable
    prim is the one of [get_world_position] at the default time, also when
    another time was asked for: the cube with default (10,0,0) and sample
    (50,0,0) at time 100 is reported at (10,0,0) for time 100, where
    [get_world_position] returns (50,0,0). *)
Theorem X9_omniverse_ignores_time
  (get_world_transform_matrix : Prim -> Matrix4d) :
  (forall (prim : Prim) (time : TimeCode),
     get_world_position_omniverse None prim time
     = KitRaised
         (ImportError
            ("omni.usd module not available. This function only works in "
             ++ "Omniverse Kit applications. Use get_world_position() for "
             ++ "portable OpenUSD code.")))
  /\ (forall (prim : Prim) (t1 t2 : TimeCode),
        exists pos : Vec3d,
          get_world_position_omniverse (Some get_world_transform_matrix)
                                       prim t1
          = KitReturned pos
          /\ get_world_position_omniverse (Some get_world_transform_matrix)
                                          prim t2
             = KitReturned pos)
  /\ ((forall prim : Prim,
         get_world_transform_matrix prim
         = ComputeLocalToWorldTransform prim Default) ->
      (forall (prim : Prim) (time : TimeCode),
         IsA_Xformable prim = true ->
         exists pos : Vec3d,
           get_world_position_omniverse (Some get_world_transform_matrix)
                                        prim time
           = KitReturned pos
           /\ outcome (get_world_position prim Default) = Returned pos)
      /\ get_world_position_omniverse (Some get_world_transform_matrix)
                                      DefaultAndSampleCube (Time 100)
         = KitReturned (mkVec3d 10 0 0)
      /\ outcome (get_world_position DefaultAndSampleCube (Time 100))
         = Returned (mkVec3d 50 0 0)).
Proof.
  split; [|split].
  - intros prim time. reflexivity.
  - intros prim t1 t2. eexists. split; reflexivity.
  - intros Hkit. split; [|split].
    + intros prim time Hx. eexists. split; [reflexivity|].
      rewrite (get_world_position_transformable prim Default Hx).
      cbn [outcome snd get_world_position_omniverse]. now rewrite Hkit.
    + cbn [get_world_position_omniverse]. rewrite Hkit. f_equal.
      unfold DefaultAndSampleCube. rewrite world_of_top_level.
      rewrite (local_single_translate default_and_sample Default
                 (mkVec3d 10 0 0) eq_refl).
      apply ExtractTranslation_SetTranslate.
    + exact position_DefaultAndSampleCube_at_100.
Qed.

Lemma X9_kit_at_default_time :
  (forall prim : Prim,
     (fun p => ComputeLocalToWorldTransform p Default) prim
     = ComputeLocalToWorldTransform prim Default)
  /\ get_world_position_omniverse
       (Some (fun p => ComputeLocalToWorldTransform p Default))
       DefaultAndSampleCube (Time 100)
     = KitReturned (mkVec3d 10 0 0).
Proof.
  split; [reflexivity|].
  exact (proj1 (proj2 (proj2 (proj2
           (X9_omniverse_ignores_time (fun p => ComputeLocalToWorldTransform p Default)))
           (fun prim => eq_refl)))).
Defined.

(** *** The placeholder of the batch query *)

(** X10. In the positions returned by the batch query a skipped prim
    cannot be told from a transformable prim at the origin: replacing, at
    any place of the input, a non-transformable prim by a transformable one
    whose world position is (0,0,0) leaves the returned list unchanged.
    Only the printed warning tells them apart. *)
Theorem X10_placeholder_is_the_origin (before after : list Prim)
  (skipped placed : Prim) (time : TimeCode) :
  IsA_Xformable skipped = false ->
  IsA_Xformable placed = true ->
  outcome (get_world_position placed time) = Returned (mkVec3d 0 0 0) ->
  outcome (get_world_positions_batch (before ++ skipped :: after)%list time)
  = outcome (get_world_positions_batch (before ++ placed :: after)%list time)
  /\ printed (events (get_world_positions_batch
                        (before ++ skipped :: after)%list time))
     <> printed (events (get_world_positions_batch
                           (before ++ placed :: after)%list time)).
Proof.
  intros Hskipped Hplaced Horigin.
  rewrite (get_world_position_transformable placed time Hplaced) in Horigin.
  cbn [outcome snd] in Horigin.
  assert (Hzero : ExtractTranslation
                    (ComputeLocalToWorldTransform placed time)
                  = mkVec3d 0 0 0) by congruence.
  rewrite !get_world_positions_batch_spec. cbn [outcome events fst snd].
  split.
  - rewrite !map_app. cbn [map]. unfold batch_position at 2 5.
    now rewrite Hskipped, Hplaced, Hzero.
  - rewrite !printed_batch_events, !filter_app. cbn [filter].
    rewrite Hskipped, Hplaced. cbn [negb]. rewrite !map_app. cbn [map].
    intros Heq. apply (f_equal (@List.length string)) in Heq.
    rewrite !length_app in Heq. cbn [List.length] in Heq. lia.
Qed.

(** The [Scope] and the untransformed [/World] in one place of a batch. *)
Lemma X10_scope_or_world :
  IsA_Xformable Scope = false
  /\ IsA_Xformable World = true
  /\ outcome (get_world_position World Default) = Returned (mkVec3d 0 0 0)
  /\ outcome (get_world_positions_batch [Child; Scope] Default)
     = outcome (get_world_positions_batch [Child; World] Default).
Proof.
  assert (Horigin : outcome (get_world_position World Default)
                    = Returned (mkVec3d 0 0 0)).
  { rewrite get_world_position_transformable by reflexivity.
    unfold World. eval_scene. now autorewrite with gf. }
  split; [reflexivity|]. split; [reflexivity|]. split; [exact Horigin|].
  exact (proj1 (X10_placeholder_is_the_origin [Child] [] Scope World Default
                  eq_refl eq_refl Horigin)).
Defined.

(** The scene of [example_nested_transforms], whose [/World] is itself
    translated: the assertions of the example hold, (105, 55, 30). *)
Example nested_transforms :
  outcome (get_world_position
             (PrimAt (PrimAt (PrimAt (PrimAt PseudoRoot "World" true
                                             [translate 100 0 0])
                                     "Group" true [translate 0 50 0])
                             "SubGroup" true [translate 0 0 25])
                     "Cube" true [translate 5 5 5])
             Default)
  = Returned (mkVec3d 105 55 30).
Proof.
  rewrite get_world_position_transformable by reflexivity.
  erewrite total_translation_world
    by (unfold translate;
        cbn [total_translation ops_translation Get constant default_value
             time_samples]; reflexivity).
  cbn [outcome snd]. rewrite ExtractTranslation_SetTranslate.
  f_equal. unfold Vec3d_add. cbn [vx vy vz]. split_components; ring.
Qed.
